(** * Verification of weather_bot.py (tg-weather-bot)

    Shallow embedding of the pure report helpers ([get_rain_forecast],
    [get_suggestions]) and of the stateful command handlers, the
    configuration persistence and the scheduled dispatch of
    [src/weather_bot.py]. *)

From Stdlib Require Import List String Ascii ZArith QArith Bool Lia.
Import ListNotations.
Open Scope string_scope.

(** ** Python helpers *)

Definition nl : string := String (Ascii.ascii_of_nat 10) EmptyString.

(** [sep.join(xs)] *)
Definition py_join (sep : string) (xs : list string) : string :=
  String.concat sep xs.

(** Python truthiness of an optional JSON integer ([dict.get] result). *)
Definition truthy (v : option Z) : bool :=
  match v with
  | Some n => negb (Z.eqb n 0)
  | None => false
  end.

(** [str.lower] on ASCII text, where it agrees with Python's; the
    concrete runs below use it. *)
Definition lower_char (c : ascii) : ascii :=
  let n := nat_of_ascii c in
  if andb (Nat.leb 65 n) (Nat.leb n 90) then ascii_of_nat (n + 32) else c.

Fixpoint ascii_lower (s : string) : string :=
  match s with
  | EmptyString => EmptyString
  | String c r => String (lower_char c) (ascii_lower r)
  end.

(** ** Forecast JSON shapes (only the keys the code reads) *)

Record Hour := mkHour {
  will_it_rain : option Z;   (** [hour.get('will_it_rain')] *)
  time_epoch : option Z      (** [hour['time_epoch']], KeyError when absent *)
}.

Record DayAgg := mkDayAgg {
  daily_will_it_rain : option Z;
  daily_chance_of_rain : option Z
}.

Record ForecastDay := mkForecastDay {
  hour : option (list Hour);
  day : option DayAgg
}.

Record Forecast := mkForecast {
  forecastday : option (list ForecastDay)
}.

Record AirQuality := mkAirQuality { us_epa_index : option Z }.

Record Current := mkCurrent {
  air_quality : option AirQuality;
  uv : option Q
}.

(** The empty dict [{}] used as default by [.get('forecastday', [{}])]. *)
Definition empty_forecastday : ForecastDay := mkForecastDay None None.

(** [forecast.get('forecastday', [{}])[0]]; [None] is the IndexError
    raised on a present but empty list. *)
Definition first_forecastday (f : Forecast) : option ForecastDay :=
  match forecastday f with
  | None => Some empty_forecastday
  | Some [] => None
  | Some (d :: _) => Some d
  end.

Section WeatherBot.

(** [datetime.fromtimestamp(t).strftime('%I:%M %p')], local time. *)
Variable fmt_time : Z -> string.

(** ** get_rain_forecast (lines 80-101) *)

(** Loop state: [(rain_periods, is_raining, start_time)]; [start_time]
    starts as Python's [None], rendered "None" by an f-string. *)
Definition rain_state : Type := (list string * bool * string)%type.

Definition rain_step (st : rain_state) (h : Hour) : option rain_state :=
  let '(periods, is_raining, start_time) := st in
  if truthy (will_it_rain h) && negb is_raining then
    match time_epoch h with
    | Some t => Some (periods, true, fmt_time t)
    | None => None
    end
  else if negb (truthy (will_it_rain h)) && is_raining then
    match time_epoch h with
    | Some t =>
        Some (app periods ["from " ++ start_time ++ " to " ++ fmt_time t],
              false, start_time)
    | None => None
    end
  else Some st.

Fixpoint rain_loop (hs : list Hour) (st : rain_state) : option rain_state :=
  match hs with
  | [] => Some st
  | h :: hs' =>
      match rain_step st h with
      | Some st' => rain_loop hs' st'
      | None => None
      end
  end.

Definition rain_message (periods : list string) : string :=
  match periods with
  | [] => "No rain expected today."
  | _ => "Rain expected " ++ py_join ", " periods ++ "."
  end.

Definition rain_finish (st : rain_state) : string :=
  let '(periods, is_raining, start_time) := st in
  rain_message
    (if is_raining then app periods ["from " ++ start_time ++ " onwards"]
     else periods).

(** [None] is an exception (IndexError on [forecastday == []], KeyError
    on a missing [time_epoch]). *)
Definition get_rain_forecast (forecast : Forecast) : option string :=
  match first_forecastday forecast with
  | None => None
  | Some fd =>
      let hours := match hour fd with Some hs => hs | None => [] end in
      match rain_loop hours ([], false, "None") with
      | Some st => Some (rain_finish st)
      | None => None
      end
  end.

(** ** Reference extractor, following the spec's wording (section 4.1)

    Samples are [(willRain, timestamp)].  A rain interval is a maximal
    run of rain samples; it ends at the first sample of the next run, or
    is open ("onwards") when the run reaches the end. *)

(** Run-length encoding: one [(flag, formatted time of first sample)]
    per maximal run. *)
Fixpoint runs (xs : list (bool * Z)) : list (bool * string) :=
  match xs with
  | [] => []
  | (b, t) :: xs' =>
      match runs xs' with
      | (b', s') :: r =>
          if Bool.eqb b b' then (b, fmt_time t) :: r
          else (b, fmt_time t) :: (b', s') :: r
      | [] => [(b, fmt_time t)]
      end
  end.

(** Rain intervals of a run list whose runs alternate. *)
Fixpoint intervals (r : list (bool * string)) : list string :=
  match r with
  | [] => []
  | (true, s) :: r' =>
      match r' with
      | [] => ["from " ++ s ++ " onwards"]
      | (_, e) :: r'' => ("from " ++ s ++ " to " ++ e) :: intervals r''
      end
  | (false, _) :: r' => intervals r'
  end.

Definition extract_spec (xs : list (bool * Z)) : string :=
  let iv := intervals (runs xs) in
  if Nat.eqb (List.length iv) 0 then "No rain expected today."
  else "Rain expected " ++ String.concat ", " iv ++ ".".

End WeatherBot.

(** A forecast whose first day carries exactly the given hourly samples. *)
Definition hour_of_sample (x : bool * Z) : Hour :=
  mkHour (Some (if fst x then 1 else 0)%Z) (Some (snd x)).

Definition forecast_of_samples (xs : list (bool * Z)) : Forecast :=
  mkForecast (Some [mkForecastDay (Some (map hour_of_sample xs)) None]).

(** ** get_suggestions (lines 103-123) *)

Definition msg_umbrella : string :=
  "Light drizzle or rain is possible—consider carrying an umbrella.".
Definition msg_air_good : string :=
  "Air quality is good—a great day for outdoor activities.".
Definition msg_air_poor : string :=
  "Air quality is poor—it may be wise to limit strenuous outdoor activities.".
Definition msg_uv_high : string :=
  "UV index is high—use sunscreen and wear protective clothing if outdoors.".
Definition msg_uv_moderate : string :=
  "UV index is moderate—use sunscreen if staying outdoors for extended periods.".
Definition msg_default : string := "- Enjoy your day!".

(** [current.get('air_quality', {}).get('us-epa-index', 0)] *)
Definition aqi_of (current : Current) : Z :=
  match air_quality current with
  | Some a => match us_epa_index a with Some i => i | None => 0%Z end
  | None => 0%Z
  end.

(** [current.get('uv', 0)] *)
Definition uv_of (current : Current) : Q :=
  match uv current with Some u => u | None => 0%Q end.

(** [day_forecast.get('daily_chance_of_rain', 0)] *)
Definition chance_of (day_forecast : DayAgg) : Z :=
  match daily_chance_of_rain day_forecast with Some c => c | None => 0%Z end.

(** The [suggestions] list built by lines 105-121 from [day_forecast]. *)
Definition suggestions (current : Current) (day_forecast : DayAgg) : list string :=
  let rain :=
    if truthy (daily_will_it_rain day_forecast)
       || Z.ltb 40 (chance_of day_forecast)
    then [msg_umbrella] else [] in
  let aqi := aqi_of current in
  let air := if Z.leb aqi 2 then [msg_air_good] else [msg_air_poor] in
  let uv_index := uv_of current in
  let uvs :=
    if negb (Qle_bool uv_index 5) then [msg_uv_high]
    else if negb (Qle_bool uv_index 2) then [msg_uv_moderate]
    else [] in
  rain ++ air ++ uvs.

(** Line 123: [return "\n".join(f"- {s}" ...) or "- Enjoy your day!"]. *)
Definition render_suggestions (items : list string) : string :=
  let joined := py_join nl (map (fun s => "- " ++ s) items) in
  if String.eqb joined "" then msg_default else joined.

Definition suggest (current : Current) (day_forecast : DayAgg) : string :=
  render_suggestions (suggestions current day_forecast).

(** [forecast.get('forecastday', [{}])[0].get('day', {})] *)
Definition day_of (fd : ForecastDay) : DayAgg :=
  match day fd with Some d => d | None => mkDayAgg None None end.

Definition get_suggestions (current : Current) (forecast : Forecast) : option string :=
  match first_forecastday forecast with
  | None => None
  | Some fd => Some (suggest current (day_of fd))
  end.

(** ** Bot state, effects and persistence *)

Inductive DateCheck := DateValid | DateFuture | DateInvalid.

(** How [history_command] ends after a valid past date: [not hist_data]
    (line 215), the message of lines 221-228, or an exception of line
    220 ([forecastday[0]] on an empty list). *)
Inductive HistResult :=
| HistNone
| HistMessage (message : string)
| HistRaises.

(** Observable effects: provider fetches, Telegram sends through
    [send_telegram_message] (with whether Telegram accepted them) and
    [reply_text] answers to the invoking chat. *)
Inductive event :=
| EvFetch (city : string) (days : Z)
| EvSend (chat_id message : string) (delivered : bool)
| EvReply (chat_id message : string).

(** What [update_config_file] writes: the whitelist and the non-empty
    location lists. *)
Definition Snapshot : Type := (list string * list (string * list string))%type.

(** How [update_config_file] ends: the file written, an exception before
    [open('config.ini', 'w')] ([config.set] or [open] raising: the file
    is untouched), or an exception after [open] truncated it. *)
Inductive write_outcome := Written | FailedBeforeOpen | FailedAfterOpen.

(** The content of config.ini. *)
Inductive config_file :=
| CfgFile (snap : Snapshot)
| CfgTruncated.

Record State := mkState {
  WHITELISTED_USERS : list string;
  user_locations : list (string * list string);  (** insertion-ordered dict *)
  stored : config_file;                            (** config.ini on disk *)
  trace : list event
}.

(** Exceptions that escape a handler: from [update_config_file], from
    [format_weather_report], from line 220 of [history_command], and
    from line 311 of [mock_command]. *)
Inductive exn := IOError | ReportError | HistoryError | AttributeError.

Inductive res (A : Type) :=
| Ok (a : A)
| Err (e : exn).
Arguments Ok {A} a.
Arguments Err {A} e.

Definition M (A : Type) : Type := State -> res A * State.

Definition ret {A} (a : A) : M A := fun s => (Ok a, s).

Definition raise {A} (e : exn) : M A := fun s => (Err e, s).

Definition bind {A B} (m : M A) (k : A -> M B) : M B :=
  fun s => match m s with
           | (Ok a, s') => k a s'
           | (Err e, s') => (Err e, s')
           end.

Notation "x <- m ;; k" := (bind m (fun x => k))
  (at level 61, m at next level, right associativity).

Definition get : M State := fun s => (Ok s, s).

Definition set_whitelist (wl : list string) : M unit :=
  fun s => (Ok tt, mkState wl (user_locations s) (stored s) (trace s)).

Definition set_locations (ul : list (string * list string)) : M unit :=
  fun s => (Ok tt, mkState (WHITELISTED_USERS s) ul (stored s) (trace s)).

Definition emit (e : event) : M unit :=
  fun s => (Ok tt, mkState (WHITELISTED_USERS s) (user_locations s) (stored s)
                          (trace s ++ [e])).

Fixpoint for_each {A} (l : list A) (f : A -> M unit) : M unit :=
  match l with
  | [] => ret tt
  | x :: l' => _ <- f x;; for_each l' f
  end.

(** [x in xs] on a list of strings *)
Definition py_in (x : string) (xs : list string) : bool :=
  existsb (String.eqb x) xs.

(** [d.get(k)] on the [user_locations] dict *)
Fixpoint dict_get (k : string) (d : list (string * list string)) : option (list string) :=
  match d with
  | [] => None
  | (k', v) :: d' => if String.eqb k k' then Some v else dict_get k d'
  end.

(** [d[k] = v]: replaces in place, or appends a new key at the end. *)
Fixpoint dict_set (k : string) (v : list string) (d : list (string * list string))
  : list (string * list string) :=
  match d with
  | [] => [(k, v)]
  | (k', v') :: d' => if String.eqb k k' then (k', v) :: d' else (k', v') :: dict_set k v d'
  end.

(** [d.setdefault(k, [])] *)
Definition dict_setdefault (k : string) (d : list (string * list string))
  : list (string * list string) :=
  match dict_get k d with Some _ => d | None => dict_set k [] d end.

(** [listLocations]: [user_locations.get(user_id, [])] *)
Definition list_locations (s : State) (user_id : string) : list string :=
  match dict_get user_id (user_locations s) with Some l => l | None => [] end.

Definition snapshot (s : State) : Snapshot :=
  (WHITELISTED_USERS s,
   filter (fun kv => negb (Nat.eqb (List.length (snd kv)) 0)) (user_locations s)).

(** Lines 44-45: the admin chat id is appended when missing. *)
Definition init_whitelist (parsed : list string) (ADMIN_CHAT_ID : string) : list string :=
  if py_in ADMIN_CHAT_ID parsed then parsed else parsed ++ [ADMIN_CHAT_ID].

Definition initial_state (parsed : list string) (ADMIN_CHAT_ID : string)
    (locs : list (string * list string)) : State :=
  let wl := init_whitelist parsed ADMIN_CHAT_ID in
  mkState wl locs (CfgFile (wl, locs)) [].

Inductive AddOutcome := Added | AlreadyPresent | Rejected.
Inductive RemoveOutcome := Removed | NotFound.

Inductive command :=
| CStart | CHelp | CWeather | CHistory | CAdd | CRemove | CList
| CBuyMeACoffee | CMock.

(** ** Auxiliary definitions for the proofs *)

(** The interval list [rain_finish] renders. *)
Definition final_periods (st : rain_state) : list string :=
  let '(periods, is_raining, start_time) := st in
  if is_raining then app periods ["from " ++ start_time ++ " onwards"] else periods.

(** Runs seen from inside an open rain run started at [s]. *)
Definition open_run (s : string) (r : list (bool * string)) : list (bool * string) :=
  match r with
  | (true, _) :: r' => (true, s) :: r'
  | _ => (true, s) :: r
  end.

(** A sample lacking [will_it_rain] made explicit as [0]. *)
Definition hour_flag_default (h : Hour) : Hour :=
  mkHour (match will_it_rain h with Some v => Some v | None => Some 0%Z end) (time_epoch h).

Definition forecast_flag_default (f : Forecast) : Forecast :=
  mkForecast (option_map (map (fun fd =>
    mkForecastDay (option_map (map hour_flag_default) (hour fd)) (day fd))) (forecastday f)).

(** An hourly sample with a timestamp and a possibly missing rain flag. *)
Definition hour_of_raw (x : option Z * Z) : Hour := mkHour (fst x) (Some (snd x)).

(** The two air-quality suggestions. *)
Definition is_air_item (s : string) : bool :=
  String.eqb s msg_air_good || String.eqb s msg_air_poor.

(** [m] only ever appends to the whitelist. *)
Definition wl_grows {A} (m : M A) : Prop :=
  forall s, exists l, WHITELISTED_USERS (snd (m s)) = app (WHITELISTED_USERS s) l.

(** [s] with [evs] appended to its trace. *)
Definition add_trace (s : State) (evs : list event) : State :=
  mkState (WHITELISTED_USERS s) (user_locations s) (stored s) (app (trace s) evs).

(** ** Configuration values (lines 30, 38, 235, 238) *)

(** [s.split(c)] for a one-character separator. *)
Fixpoint py_split (c : ascii) (s : string) : list string :=
  match s with
  | EmptyString => [EmptyString]
  | String x r =>
      let parts := py_split c r in
      if Ascii.eqb x c then EmptyString :: parts
      else match parts with
           | p :: ps => String x p :: ps
           | [] => [String x EmptyString]
           end
  end.

(** [str.isspace()] on ASCII characters: space, \t, \n, \v, \f, \r and
    the separators \x1c-\x1f. *)
Definition is_space (c : ascii) : bool :=
  let n := nat_of_ascii c in
  Nat.eqb n 32 || (Nat.leb 9 n && Nat.leb n 13) || (Nat.leb 28 n && Nat.leb n 31).

(** [str.strip()] on ASCII text. *)
Fixpoint py_lstrip (s : string) : string :=
  match s with
  | EmptyString => EmptyString
  | String x r => if is_space x then py_lstrip r else s
  end.

Fixpoint py_rstrip (s : string) : string :=
  match s with
  | EmptyString => EmptyString
  | String x r =>
      let r' := py_rstrip r in
      if is_space x && String.eqb r' EmptyString then EmptyString else String x r'
  end.

Definition py_strip (s : string) : string := py_rstrip (py_lstrip s).

Definition comma : ascii := ","%char.
Definition pct : ascii := "%"%char.

(** configparser's [BasicInterpolation.before_set], run by
    [config.set]: [value.replace('%%', '')], ... *)
Fixpoint drop_pct_pairs (s : string) : string :=
  match s with
  | EmptyString => EmptyString
  | String x r =>
      if Ascii.eqb x pct then
        match r with
        | String y r' => if Ascii.eqb y pct then drop_pct_pairs r' else String x (drop_pct_pairs r)
        | EmptyString => String x EmptyString
        end
      else String x (drop_pct_pairs r)
  end.

(** ... then [_KEYCRE.sub('', ...)] with [_KEYCRE = %\(([^)]+)\)s].
    After ["%("]: one or more characters other than [')'] and then
    [")s"]; the text after the match. *)
Fixpoint keyref_rest (r : string) (seen : bool) : option string :=
  match r with
  | EmptyString => None
  | String x r' =>
      if Ascii.eqb x ")"%char then
        if seen then
          match r' with
          | String y r'' => if Ascii.eqb y "s"%char then Some r'' else None
          | EmptyString => None
          end
        else None
      else keyref_rest r' true
  end.

(** Every match removed, scanning left to right; [fuel] bounds the scan
    (the length of [s] is enough). *)
Fixpoint drop_keyrefs (fuel : nat) (s : string) : string :=
  match fuel with
  | O => s
  | S f =>
      match s with
      | EmptyString => EmptyString
      | String x r =>
          if Ascii.eqb x pct then
            match r with
            | String y r' =>
                if Ascii.eqb y "("%char then
                  match keyref_rest r' false with
                  | Some rest => drop_keyrefs f rest
                  | None => String x (drop_keyrefs f r)
                  end
                else String x (drop_keyrefs f r)
            | EmptyString => String x EmptyString
            end
          else String x (drop_keyrefs f r)
      end
  end.

(** ... and ValueError if a '%' is left: [false] when [config.set]
    raises. *)
Definition interp_set_ok (v : string) : bool :=
  negb (existsb (Ascii.eqb pct)
          (list_ascii_of_string (drop_keyrefs (String.length v) (drop_pct_pairs v)))).

(** [BasicInterpolation.before_get] ([_interpolate_some]) on a value read
    from the file: ['%%'] gives ['%']; [None] for a [%(name)s] reference
    (replaced by another option's value, which is not modelled) and for
    any other '%' (InterpolationSyntaxError). *)
Fixpoint interp_get (s : string) : option string :=
  match s with
  | EmptyString => Some EmptyString
  | String x r =>
      if Ascii.eqb x pct then
        match r with
        | String y r' =>
            if Ascii.eqb y pct
            then match interp_get r' with Some t => Some (String pct t) | None => None end
            else None
        | EmptyString => None
        end
      else match interp_get r with Some t => Some (String x t) | None => None end
  end.

(** Every character of [s] satisfies [p]. *)
Fixpoint all_chars (p : ascii -> bool) (s : string) : bool :=
  match s with
  | EmptyString => true
  | String x r => p x && all_chars p r
  end.

(** Printable ASCII other than ',' and '%'. *)
Definition plain_char (c : ascii) : bool :=
  Nat.leb 32 (nat_of_ascii c) && Nat.leb (nat_of_ascii c) 126
  && negb (Ascii.eqb c comma) && negb (Ascii.eqb c pct).



(** Line 235: [config.set('TELEGRAM', 'WHITELISTED_USERS', ','.join(...))]. *)
Definition save_whitelist_value (wl : list string) : option string :=
  let v := py_join "," wl in
  if interp_set_ok v then Some v else None.

(** Line 30 on the value read back:
    [[user.strip() for user in v.split(',') if user.strip()]]. *)
Definition parse_whitelist (v : string) : option (list string) :=
  match interp_get (py_strip v) with
  | Some x => Some (filter (fun u => negb (String.eqb u EmptyString)) (map py_strip (py_split comma x)))
  | None => None
  end.

(** Lines 132-134: [aqi_levels.get(aqi_index, 'Unknown')]. *)
Definition aqi_desc (aqi_index : Z) : string :=
  match aqi_index with
  | 1%Z => "Good"
  | 2%Z => "Moderate"
  | 3%Z => "Unhealthy for Sensitive Groups"
  | 4%Z => "Unhealthy"
  | 5%Z => "Very Unhealthy"
  | 6%Z => "Hazardous"
  | _ => "Unknown"
  end.

(** [m] only appends effects to the trace: whitelist, locations and the
    stored configuration are left as they are. *)
Definition trace_only {A} (m : M A) : Prop :=
  forall s, exists evs, snd (m s) = add_trace s evs.

(** [m] never introduces a duplicate id into the whitelist. *)
Definition keeps_whitelist_nodup {A} (m : M A) : Prop :=
  forall s, NoDup (WHITELISTED_USERS s) -> NoDup (WHITELISTED_USERS (snd (m s))).

(** config.ini holds the in-memory registry. *)
Definition in_sync (s : State) : Prop := stored s = CfgFile (snapshot s).

(** [m] keeps config.ini in step with the registry whenever it
    completes. *)
Definition keeps_sync {A} (m : M A) : Prop :=
  forall s a s', in_sync s -> m s = (Ok a, s') -> in_sync s'.

Section Bot.

(** [get_weather]: [requests.get(...).json()]; [None] for a caught
    [RequestException] or a falsy (empty) payload. *)
Variable WData : Type.
Variable weather_api : string -> Z -> option WData.
(** [format_weather_report(city, data)]; [None] when it raises: line 129
    ([forecastday[0]] on an empty list) or [get_rain_forecast] and
    [get_suggestions] on a payload lacking the keys they index. *)
Variable format_weather_report : string -> WData -> option string.
(** [get_historical_weather] and lines 215-228. *)
Variable history_api : string -> string -> HistResult.
(** [strptime] and the comparison with today's date (lines 206-213). *)
Variable date_check : string -> DateCheck.
(** [bot.send_message]: [false] when it raises a [TelegramError]. *)
Variable tg_send : string -> string -> bool.
(** How [update_config_file] ends when it writes this configuration. *)
Variable config_write : Snapshot -> write_outcome.
Variable ADMINS : list string.
(** [str.lower] on any text (Unicode case mapping included). *)
Variable py_lower : string -> string.

(** No location of a recipient is listed twice up to [str.lower]. *)
Definition no_ci_duplicates (s : State) : Prop :=
  forall u locs, dict_get u (user_locations s) = Some locs -> NoDup (map py_lower locs).

(** [m] keeps the lists free of case-insensitive duplicates, also when
    it raises. *)
Definition keeps_no_ci_duplicates {A} (m : M A) : Prop :=
  forall s, no_ci_duplicates s -> no_ci_duplicates (snd (m s)).

Definition reply (chat_id message : string) : M unit := emit (EvReply chat_id message).

(** Lines 233-243: [config.set] for the whitelist and each location list,
    then [open('config.ini', 'w')], which truncates the file, and
    [config.write]. *)
Definition update_config_file : M unit :=
  fun s =>
    let snap := snapshot s in
    match config_write snap with
    | Written =>
        (Ok tt, mkState (WHITELISTED_USERS s) (user_locations s) (CfgFile snap) (trace s))
    | FailedBeforeOpen => (Err IOError, s)
    | FailedAfterOpen =>
        (Err IOError, mkState (WHITELISTED_USERS s) (user_locations s) CfgTruncated (trace s))
    end.

(** Lines 49-58. *)
Definition get_weather (city : string) (days : Z) : M (option WData) :=
  _ <- emit (EvFetch city days);; ret (weather_api city days).

(** Lines 71-76: a [TelegramError] is logged and swallowed. *)
Definition send_telegram_message (chat_id message : string) : M unit :=
  emit (EvSend chat_id message (tg_send chat_id message)).

(** Lines 150-157: nothing catches an exception of
    [format_weather_report]. *)
Definition send_weather_report (chat_id city : string) : M unit :=
  weather_data <- get_weather city 3;;
  match weather_data with
  | Some d =>
      match format_weather_report city d with
      | Some report => send_telegram_message chat_id report
      | None => raise ReportError
      end
  | None => send_telegram_message chat_id ("Could not retrieve weather for " ++ city ++ ".")
  end.

(** Lines 159-165. *)
Definition scheduled_weather_update : M unit :=
  s <- get;;
  for_each (user_locations s) (fun entry =>
    let '(user_id, locations) := entry in
    s' <- get;;
    if py_in user_id (WHITELISTED_USERS s')
    then for_each locations (fun city => send_weather_report user_id city)
    else ret tt).

Definition start_text : string :=
  "**Welcome to the Advanced Weather Bot!**" ++ nl ++ nl ++
  "**/weather [city]**: Get current weather. Shows all your locations if no city is specified." ++ nl ++
  "**/add <city>**: Add a city to your daily alert list." ++ nl ++
  "**/remove <city>**: Remove a city from your list." ++ nl ++
  "**/list**: View your list of registered locations." ++ nl ++
  "**/help**: Show this help message.".

(** Lines 167-177 (no whitelist check). *)
Definition start_command (user_id chat_id : string) (args : list string) : M unit :=
  reply chat_id start_text.

(** Lines 179-190. *)
Definition weather_command (user_id chat_id : string) (args : list string) : M unit :=
  s <- get;;
  if negb (py_in user_id (WHITELISTED_USERS s)) then ret tt else
  let cities := match args with
                | [] => list_locations s user_id
                | _ => [py_join " " args]
                end in
  match cities with
  | [] => reply chat_id "Please specify a city or add one with /add <city>."
  | _ => for_each cities (fun city => send_weather_report chat_id city)
  end.

(** Lines 194-229. *)
Definition history_command (user_id chat_id : string) (args : list string) : M unit :=
  s <- get;;
  if negb (py_in user_id (WHITELISTED_USERS s)) then ret tt else
  if Nat.ltb (List.length args) 2 then reply chat_id "Usage: /history <YYYY-MM-DD> <city>" else
  let date_str := hd "" args in
  let city := py_join " " (tl args) in
  match date_check date_str with
  | DateInvalid => reply chat_id "Invalid date format. Please use YYYY-MM-DD."
  | DateFuture => reply chat_id "Cannot get history for a future date."
  | DateValid =>
      match history_api city date_str with
      | HistNone => reply chat_id ("Could not get history for " ++ city ++ " on " ++ date_str ++ ".")
      | HistMessage message => reply chat_id message
      | HistRaises => raise HistoryError
      end
  end.

(** [addLocation]: lines 253-263 (validation probe, duplicate check,
    append, persist). *)
Definition add_location (user_id city : string) : M AddOutcome :=
  valid <- get_weather city 1;;
  match valid with
  | None => ret Rejected
  | Some _ =>
      s <- get;;
      _ <- set_locations (dict_setdefault user_id (user_locations s));;
      s1 <- get;;
      let locs := list_locations s1 user_id in
      if negb (py_in (py_lower city) (map py_lower locs)) then
        _ <- set_locations (dict_set user_id (locs ++ [city]) (user_locations s1));;
        _ <- update_config_file;;
        ret Added
      else ret AlreadyPresent
  end.

Definition add_reply (city : string) (o : AddOutcome) : string :=
  match o with
  | Rejected => "Invalid city: '" ++ city ++ "'. Please check the name."
  | Added => "Added '" ++ city ++ "' to your locations."
  | AlreadyPresent => "'" ++ city ++ "' is already in your list."
  end.

(** Lines 245-263. *)
Definition add_command (user_id chat_id : string) (args : list string) : M unit :=
  s <- get;;
  if negb (py_in user_id (WHITELISTED_USERS s)) then ret tt else
  match args with
  | [] => reply chat_id "Usage: /add <city>"
  | _ => let city := py_join " " args in
         o <- add_location user_id city;;
         reply chat_id (add_reply city o)
  end.

(** [removeLocation]: lines 273-278. *)
Definition remove_location (user_id city_to_remove : string) : M RemoveOutcome :=
  s <- get;;
  match dict_get user_id (user_locations s) with
  | Some locs =>
      if py_in (py_lower city_to_remove) (map py_lower locs) then
        _ <- set_locations
               (dict_set user_id
                  (filter (fun loc => negb (String.eqb (py_lower loc) (py_lower city_to_remove))) locs)
                  (user_locations s));;
        _ <- update_config_file;;
        ret Removed
      else ret NotFound
  | None => ret NotFound
  end.

Definition remove_reply (city : string) (o : RemoveOutcome) : string :=
  match o with
  | Removed => "Removed '" ++ city ++ "'."
  | NotFound => "'" ++ city ++ "' not found in your list."
  end.

(** Lines 265-278. *)
Definition remove_command (user_id chat_id : string) (args : list string) : M unit :=
  s <- get;;
  if negb (py_in user_id (WHITELISTED_USERS s)) then ret tt else
  match args with
  | [] => reply chat_id "Usage: /remove <city>"
  | _ => let city := py_join " " args in
         o <- remove_location user_id city;;
         reply chat_id (remove_reply city o)
  end.

(** Lines 280-285. *)
Definition list_command (user_id chat_id : string) (args : list string) : M unit :=
  s <- get;;
  if negb (py_in user_id (WHITELISTED_USERS s)) then ret tt else
  let locations := list_locations s user_id in
  reply chat_id (match locations with
                 | [] => "You have no locations."
                 | _ => "**Your locations:**" ++ nl ++ "- " ++ py_join (nl ++ "- ") locations
                 end).

(** [grantWhitelist]: lines 287-294. *)
Definition buymeacoffee_command (user_id chat_id : string) (args : list string) : M unit :=
  s <- get;;
  if py_in user_id (WHITELISTED_USERS s) then reply chat_id "You are already whitelisted." else
  _ <- set_whitelist (WHITELISTED_USERS s ++ [user_id]);;
  _ <- update_config_file;;
  reply chat_id "You are now whitelisted! Use /start to see commands.".

(** Lines 296-334.  Line 311 assigns [mock_update.message.text]; the
    handlers are coroutines of python-telegram-bot 20 or later, whose
    [Message] objects are frozen, so the assignment raises
    AttributeError before anything is dispatched. *)
Definition mock_command (user_id chat_id : string) (args : list string) : M unit :=
  if negb (py_in user_id ADMINS)
  then reply chat_id "You are not authorized to use this command." else
  match args with
  | [] => reply chat_id "Usage: /mock <command> [args...]"
  | _ :: _ => raise AttributeError
  end.

(** Lines 351-362: the registered handlers. *)
Definition handle (c : command) : string -> string -> list string -> M unit :=
  match c with
  | CStart | CHelp => start_command
  | CWeather => weather_command
  | CHistory => history_command
  | CAdd => add_command
  | CRemove => remove_command
  | CList => list_command
  | CBuyMeACoffee => buymeacoffee_command
  | CMock => mock_command
  end.

(** Inputs the process reacts to: a command update, or the daily
    scheduler firing.  An exception escaping a handler is logged by the
    framework and the state it left behind is kept. *)
Inductive input :=
| InCommand (c : command) (user_id chat_id : string) (args : list string)
| InSchedule.

Definition step (i : input) (s : State) : State :=
  match i with
  | InCommand c u ch args => snd (handle c u ch args s)
  | InSchedule => snd (scheduled_weather_update s)
  end.

Fixpoint run (is : list input) (s : State) : State :=
  match is with
  | [] => s
  | i :: is' => run is' (step i s)
  end.

(** The message [send_weather_report] sends for [city]; [None] when
    formatting raises. *)
Definition report_text (city : string) : option string :=
  match weather_api city 3 with
  | Some d => format_weather_report city d
  | None => Some ("Could not retrieve weather for " ++ city ++ ".")
  end.


(** The fetch and the send of [send_weather_report chat_id city]. *)
Definition pair_events (chat_id city : string) : list event :=
  match report_text city with
  | Some m => [EvFetch city 3; EvSend chat_id m (tg_send chat_id m)]
  | None => [EvFetch city 3]
  end.

(** Reference reading of a run over [pairs]: one fetch and one send per
    pair, in order, until a report fails to format; that pair's fetch is
    the last effect and the run ends with its exception. *)
Fixpoint dispatch_spec (pairs : list (string * string)) : res unit * list event :=
  match pairs with
  | [] => (Ok tt, [])
  | (chat_id, city) :: rest =>
      match report_text city with
      | Some m =>
          let '(r, evs) := dispatch_spec rest in
          (r, EvFetch city 3 :: EvSend chat_id m (tg_send chat_id m) :: evs)
      | None => (Err ReportError, [EvFetch city 3])
      end
  end.

(** [m] behaves as [dispatch_spec pairs] from any state with whitelist
    [wl]. *)
Definition runs_as (wl : list string) (m : M unit) (pairs : list (string * string)) : Prop :=
  forall s, WHITELISTED_USERS s = wl ->
  m s = (fst (dispatch_spec pairs), add_trace s (snd (dispatch_spec pairs))).

(** * Proofs *)

Lemma update_config_file_wl s :
  WHITELISTED_USERS (snd (update_config_file s)) = WHITELISTED_USERS s.
Proof. unfold update_config_file. destruct (config_write (snapshot s)); reflexivity. Qed.

Lemma update_config_file_ul s :
  user_locations (snd (update_config_file s)) = user_locations s.
Proof. unfold update_config_file. destruct (config_write (snapshot s)); reflexivity. Qed.

Lemma update_config_file_trace s :
  trace (snd (update_config_file s)) = trace s.
Proof. unfold update_config_file. destruct (config_write (snapshot s)); reflexivity. Qed.

(** [update_config_file] succeeds and config.ini then holds the
    registry, or it raises [IOError] and config.ini is as it was or
    truncated. *)
Lemma update_config_file_outcome s :
  (fst (update_config_file s) = Ok tt
   /\ stored (snd (update_config_file s)) = CfgFile (snapshot s))
  \/ (fst (update_config_file s) = Err IOError
      /\ (stored (snd (update_config_file s)) = stored s
          \/ stored (snd (update_config_file s)) = CfgTruncated)).
Proof.
  unfold update_config_file. destruct (config_write (snapshot s)); cbn; auto.
Qed.

(** ** Whitelist monotonicity *)

Lemma wl_grows_ret {A} (a : A) : wl_grows (ret a).
Proof. intros s. exists []. rewrite app_nil_r. reflexivity. Qed.

Lemma wl_grows_raise {A} e : wl_grows (@raise A e).
Proof. intros s. exists []. rewrite app_nil_r. reflexivity. Qed.

Lemma wl_grows_get : wl_grows get.
Proof. intros s. exists []. rewrite app_nil_r. reflexivity. Qed.

Lemma wl_grows_emit e : wl_grows (emit e).
Proof. intros s. exists []. rewrite app_nil_r. reflexivity. Qed.

Lemma wl_grows_set_locations ul : wl_grows (set_locations ul).
Proof. intros s. exists []. rewrite app_nil_r. reflexivity. Qed.

Lemma wl_grows_update_config_file : wl_grows update_config_file.
Proof. intros s. exists []. rewrite app_nil_r. apply update_config_file_wl. Qed.

Lemma wl_grows_bind {A B} (m : M A) (k : A -> M B) :
  wl_grows m -> (forall a, wl_grows (k a)) -> wl_grows (bind m k).
Proof.
  intros Hm Hk s. unfold bind.
  destruct (Hm s) as [l Hl].
  destruct (m s) as [[a|e] s'] eqn:E; cbn in Hl.
  - destruct (Hk a s') as [l' Hl']. exists (app l l').
    rewrite Hl', Hl, app_assoc. reflexivity.
  - exists l. exact Hl.
Qed.

Lemma wl_grows_for_each {A} (l : list A) (f : A -> M unit) :
  (forall x, wl_grows (f x)) -> wl_grows (for_each l f).
Proof.
  intros Hf. induction l as [|x l IH]; cbn [for_each].
  - apply wl_grows_ret.
  - apply wl_grows_bind; [apply Hf | intros; exact IH].
Qed.

Ltac grows :=
  repeat (cbv beta;
    first
    [ apply wl_grows_bind; intros
    | apply wl_grows_ret | apply wl_grows_raise | apply wl_grows_get | apply wl_grows_emit
    | apply wl_grows_set_locations | apply wl_grows_update_config_file
    | apply wl_grows_for_each; intros
    | match goal with
      | |- wl_grows (if ?b then _ else _) => destruct b
      | |- wl_grows (match ?x with _ => _ end) => destruct x
      | |- wl_grows (let '(_, _) := ?x in _) => destruct x
      end
    | progress unfold reply, get_weather, send_telegram_message, send_weather_report,
        start_command, weather_command, history_command, add_location, add_command,
        remove_location, remove_command, list_command, scheduled_weather_update,
        mock_command ]).

Lemma wl_grows_buymeacoffee u ch args : wl_grows (buymeacoffee_command u ch args).
Proof.
  intros s. unfold buymeacoffee_command, bind, get, reply, emit, set_whitelist,
    update_config_file. cbn.
  destruct (py_in u (WHITELISTED_USERS s)).
  - exists []. rewrite app_nil_r. reflexivity.
  - destruct (config_write _); cbn; exists [u]; reflexivity.
Qed.

Lemma wl_grows_scheduled : wl_grows scheduled_weather_update.
Proof. grows. Qed.

Lemma wl_grows_handle c u ch args : wl_grows (handle c u ch args).
Proof.
  destruct c; cbn [handle]; try apply wl_grows_buymeacoffee; grows.
Qed.

Lemma py_in_app x l l' : py_in x l = true -> py_in x (app l l') = true.
Proof. unfold py_in. rewrite existsb_app. intros ->. reflexivity. Qed.

Lemma run_keeps_whitelisted x inputs :
  forall s, py_in x (WHITELISTED_USERS s) = true ->
            py_in x (WHITELISTED_USERS (run inputs s)) = true.
Proof.
  induction inputs as [|i inputs IH]; intros s Hx; [exact Hx|].
  cbn [run]. apply IH. destruct i as [c u ch args|]; cbn [step].
  - destruct (wl_grows_handle c u ch args s) as [l ->]. apply py_in_app, Hx.
  - destruct (wl_grows_scheduled s) as [l ->]. apply py_in_app, Hx.
Qed.

(** C9: the admin chat id is whitelisted in the initial state (lines
    44-45), and stays whitelisted after any sequence of command updates
    and scheduled runs, since every handler only appends to the
    whitelist. *)
Theorem admin_always_whitelisted (parsed : list string) (ADMIN_CHAT_ID : string)
    (locs : list (string * list string)) (inputs : list input) :
  py_in ADMIN_CHAT_ID (WHITELISTED_USERS (initial_state parsed ADMIN_CHAT_ID locs)) = true
  /\ py_in ADMIN_CHAT_ID
       (WHITELISTED_USERS (run inputs (initial_state parsed ADMIN_CHAT_ID locs))) = true
  /\ (forall c u ch args s,
        exists l, WHITELISTED_USERS (snd (handle c u ch args s)) = app (WHITELISTED_USERS s) l).
Proof.
  assert (H0 : py_in ADMIN_CHAT_ID (WHITELISTED_USERS (initial_state parsed ADMIN_CHAT_ID locs)) = true).
  { cbn. unfold init_whitelist.
    destruct (py_in ADMIN_CHAT_ID parsed) eqn:E; [exact E|].
    unfold py_in. rewrite existsb_app. cbn. rewrite String.eqb_refl, orb_true_r. reflexivity. }
  split; [exact H0|]. split; [apply run_keeps_whitelisted, H0|].
  intros. apply wl_grows_handle.
Qed.

(** ** Scheduled dispatch *)

Lemma add_trace_app s evs evs' : add_trace (add_trace s evs) evs' = add_trace s (app evs evs').
Proof. unfold add_trace. cbn. rewrite app_assoc. reflexivity. Qed.

Lemma add_trace_nil s : add_trace s [] = s.
Proof. destruct s. unfold add_trace. cbn. rewrite app_nil_r. reflexivity. Qed.

Lemma dispatch_spec_app p1 p2 :
  dispatch_spec (app p1 p2)
  = match dispatch_spec p1 with
    | (Ok _, e1) => (fst (dispatch_spec p2), app e1 (snd (dispatch_spec p2)))
    | (Err e, e1) => (Err e, e1)
    end.
Proof.
  induction p1 as [|[u c] p1 IH]; cbn [app dispatch_spec].
  - destruct (dispatch_spec p2); reflexivity.
  - destruct (report_text c); [|reflexivity].
    rewrite IH. destruct (dispatch_spec p1) as [[a|e] e1]; reflexivity.
Qed.

Lemma dispatch_spec_all_ok pairs :
  (forall u c, In (u, c) pairs -> report_text c <> None) ->
  dispatch_spec pairs = (Ok tt, flat_map (fun p => pair_events (fst p) (snd p)) pairs).
Proof.
  induction pairs as [|[u c] pairs IH]; intros H; [reflexivity|].
  cbn [dispatch_spec flat_map fst snd]. unfold pair_events at 1.
  destruct (report_text c) as [m|] eqn:E.
  - rewrite IH by (intros u' c' Hin; apply (H u' c'); right; exact Hin). reflexivity.
  - exfalso. apply (H u c); [left; reflexivity | exact E].
Qed.

Lemma dispatch_spec_stop pre u c post :
  (forall u' c', In (u', c') pre -> report_text c' <> None) -> report_text c = None ->
  dispatch_spec (app pre ((u, c) :: post))
  = (Err ReportError, app (flat_map (fun p => pair_events (fst p) (snd p)) pre) [EvFetch c 3]).
Proof.
  intros Hpre Hc. rewrite dispatch_spec_app, (dispatch_spec_all_ok pre Hpre).
  cbn [dispatch_spec fst snd]. rewrite Hc. reflexivity.
Qed.

Lemma runs_as_bind wl m k p1 p2 :
  runs_as wl m p1 -> runs_as wl k p2 -> runs_as wl (bind m (fun _ => k)) (app p1 p2).
Proof.
  intros Hm Hk s Hs. unfold bind. rewrite (Hm s Hs), dispatch_spec_app.
  destruct (dispatch_spec p1) as [[a|e] e1]; cbn [fst snd]; [|reflexivity].
  rewrite (Hk (add_trace s e1) Hs), add_trace_app. reflexivity.
Qed.

Lemma runs_as_for_each {A} wl (l : list A) (f : A -> M unit) (g : A -> list (string * string)) :
  (forall x, runs_as wl (f x) (g x)) -> runs_as wl (for_each l f) (flat_map g l).
Proof.
  intros Hf. induction l as [|x l IH]; cbn [for_each flat_map].
  - intros s _. unfold ret. cbn [dispatch_spec fst snd]. rewrite add_trace_nil. reflexivity.
  - apply runs_as_bind; [apply Hf | exact IH].
Qed.

Lemma send_weather_report_runs_as wl u city :
  runs_as wl (send_weather_report u city) [(u, city)].
Proof.
  intros s _.
  unfold send_weather_report, get_weather, dispatch_spec, report_text, bind,
    send_telegram_message, emit, ret, raise.
  cbn. destruct (weather_api city 3) as [d|]; [destruct (format_weather_report city d)|];
    unfold add_trace; cbn; rewrite <- ?app_assoc; reflexivity.
Qed.

Lemma flat_map_single_pair (u : string) (l : list string) :
  flat_map (fun city => [(u, city)]) l = map (fun city => (u, city)) l.
Proof. induction l as [|c l IH]; cbn; [reflexivity | rewrite IH; reflexivity]. Qed.



(** ** Location registry *)

Lemma dict_get_set_eq k v d : dict_get k (dict_set k v d) = Some v.
Proof.
  induction d as [|[k' v'] d IH]; cbn.
  - rewrite String.eqb_refl. reflexivity.
  - destruct (String.eqb k k') eqn:E; cbn.
    + rewrite E. reflexivity.
    + rewrite E. exact IH.
Qed.

Lemma dict_get_set_neq k k' v d :
  k' <> k -> dict_get k' (dict_set k v d) = dict_get k' d.
Proof.
  intros Hne. induction d as [|[k0 v0] d IH]; cbn.
  - apply String.eqb_neq in Hne. rewrite Hne. reflexivity.
  - destruct (String.eqb k k0) eqn:E; cbn.
    + apply String.eqb_eq in E. subst k0. apply String.eqb_neq in Hne. rewrite Hne. reflexivity.
    + destruct (String.eqb k' k0); [reflexivity | exact IH].
Qed.

Lemma dict_get_setdefault k d :
  dict_get k (dict_setdefault k d)
  = Some (match dict_get k d with Some l => l | None => [] end).
Proof.
  unfold dict_setdefault. destruct (dict_get k d) eqn:E; [exact E|].
  apply dict_get_set_eq.
Qed.

Lemma dict_get_setdefault_neq k k' d :
  k' <> k -> dict_get k' (dict_setdefault k d) = dict_get k' d.
Proof.
  intros Hne. unfold dict_setdefault. destruct (dict_get k d); [reflexivity|].
  apply dict_get_set_neq, Hne.
Qed.

Lemma py_in_false_iff x l : py_in x l = false <-> ~ In x l.
Proof.
  unfold py_in. split.
  - intros H Hin. assert (existsb (String.eqb x) l = true) as H'.
    { apply existsb_exists. exists x. split; [exact Hin | apply String.eqb_refl]. }
    congruence.
  - intros H. destruct (existsb (String.eqb x) l) eqn:E; [|reflexivity].
    apply existsb_exists in E. destruct E as [y [Hy Heq]].
    apply String.eqb_eq in Heq. subst y. contradiction.
Qed.

(** The three outcomes of [add_location], state by state. *)
Lemma add_location_cases u c s :
  let s2 := mkState (WHITELISTED_USERS s) (dict_setdefault u (user_locations s)) (stored s)
                    (app (trace s) [EvFetch c 1]) in
  let s3 := mkState (WHITELISTED_USERS s)
                    (dict_set u (app (list_locations s u) [c]) (dict_setdefault u (user_locations s)))
                    (stored s) (app (trace s) [EvFetch c 1]) in
  (weather_api c 1 = None /\ add_location u c s = (Ok Rejected, add_trace s [EvFetch c 1]))
  \/ (weather_api c 1 <> None
      /\ py_in (py_lower c) (map py_lower (list_locations s u)) = true
      /\ add_location u c s = (Ok AlreadyPresent, s2))
  \/ (weather_api c 1 <> None
      /\ py_in (py_lower c) (map py_lower (list_locations s u)) = false
      /\ add_location u c s
         = (match fst (update_config_file s3) with Ok _ => Ok Added | Err e => Err e end,
            snd (update_config_file s3))).
Proof.
  cbv zeta.
  assert (Hl : list_locations
                 (mkState (WHITELISTED_USERS s) (dict_setdefault u (user_locations s)) (stored s)
                    (app (trace s) [EvFetch c 1])) u = list_locations s u).
  { unfold list_locations. cbn. rewrite dict_get_setdefault.
    destruct (dict_get u (user_locations s)); reflexivity. }
  unfold add_location, get_weather, bind, emit, ret, get, set_locations.
  cbn [fst snd WHITELISTED_USERS user_locations stored trace].
  destruct (weather_api c 1) as [w|] eqn:Ew.
  - right. cbn [WHITELISTED_USERS user_locations stored trace]. rewrite Hl.
    destruct (py_in (py_lower c) (map py_lower (list_locations s u))) eqn:Ep; cbn [negb].
    + left. split; [discriminate|]. split; reflexivity.
    + right. split; [discriminate|]. split; [reflexivity|].
      destruct (update_config_file _) as [[a|e] s']; reflexivity.
  - left. split; reflexivity.
Qed.

Lemma list_locations_state wl ul st tr u :
  list_locations (mkState wl ul st tr) u
  = match dict_get u ul with Some l => l | None => [] end.
Proof. reflexivity. Qed.

Lemma list_locations_update x u :
  list_locations (snd (update_config_file x)) u = list_locations x u.
Proof. unfold list_locations. rewrite update_config_file_ul. reflexivity. Qed.

Lemma update_config_file_fst x :
  fst (update_config_file x) = Ok tt \/ fst (update_config_file x) = Err IOError.
Proof. destruct (update_config_file_outcome x) as [[H _]|[H _]]; auto. Qed.

Ltac case_write :=
  match goal with
  | |- context [fst (update_config_file ?x)] =>
      let Ho := fresh "Ho" in
      destruct (update_config_file_fst x) as [Ho|Ho]; rewrite Ho
  end.

(** C1 (amended): when persisting fails inside [/add] (the only error it
    can raise), nothing is rolled back: the recipient's list is the
    pre-mutation list with the new location appended, config.ini is
    left as it was (the failure came before [open]) or truncated (it
    came after), and the exception escapes before any reply (the only
    effect left is the validation fetch). *)
Theorem add_command_persist_failure (u ch : string) (args : list string) (s : State) :
  fst (add_command u ch args s) = Err IOError ->
  list_locations (snd (add_command u ch args s)) u = app (list_locations s u) [py_join " " args]
  /\ (stored (snd (add_command u ch args s)) = stored s
      \/ stored (snd (add_command u ch args s)) = CfgTruncated)
  /\ trace (snd (add_command u ch args s)) = app (trace s) [EvFetch (py_join " " args) 1].
Proof.
  unfold add_command, bind, get.
  destruct (py_in u (WHITELISTED_USERS s)); cbn [negb]; [|discriminate].
  destruct args as [|a args']; [discriminate|].
  set (city := py_join " " (a :: args')).
  destruct (add_location_cases u city s) as [[_ E] | [[_ [_ E]] | [_ [_ E]]]];
    rewrite E; [discriminate | discriminate |].
  unfold update_config_file, reply, emit.
  destruct (config_write _); cbn [fst snd stored trace]; [discriminate| |];
    intros _; (split; [rewrite list_locations_state; cbn [user_locations];
                       rewrite dict_get_set_eq; reflexivity|]);
    split; auto.
Qed.

Lemma filter_no_match (x : string) (l : list string) :
  ~ In x (map py_lower l) -> filter (fun y => String.eqb (py_lower y) x) l = [].
Proof.
  induction l as [|y l IH]; intros H; [reflexivity|].
  cbn. destruct (String.eqb (py_lower y) x) eqn:E.
  - apply String.eqb_eq in E. exfalso. apply H. left. exact E.
  - apply IH. intros Hin. apply H. right. exact Hin.
Qed.

Lemma add_location_added u c s :
  fst (add_location u c s) = Ok Added ->
  py_in (py_lower c) (map py_lower (list_locations s u)) = false
  /\ list_locations (snd (add_location u c s)) u = app (list_locations s u) [c].
Proof.
  destruct (add_location_cases u c s) as [[_ E] | [[_ [_ E]] | [_ [Hp E]]]];
    rewrite E; [discriminate | discriminate |].
  intros _. split; [exact Hp|].
  cbn [snd]. rewrite list_locations_update, list_locations_state, dict_get_set_eq. reflexivity.
Qed.

Lemma add_location_present u c s :
  py_in (py_lower c) (map py_lower (list_locations s u)) = true ->
  fst (add_location u c s)
    = match weather_api c 1 with Some _ => Ok AlreadyPresent | None => Ok Rejected end
  /\ list_locations (snd (add_location u c s)) u = list_locations s u.
Proof.
  intros Hp.
  destruct (add_location_cases u c s) as [[Ew E] | [[Ew [_ E]] | [_ [Hp' E]]]];
    [| | congruence]; rewrite E.
  - rewrite Ew. split; reflexivity.
  - destruct (weather_api c 1); [|congruence]. split; [reflexivity|].
    cbn [snd]. rewrite list_locations_state. cbn [user_locations]. rewrite dict_get_setdefault. reflexivity.
Qed.

Lemma no_dup_list_locations s u :
  no_ci_duplicates s -> NoDup (map py_lower (list_locations s u)).
Proof.
  intros Hinv. unfold list_locations.
  destruct (dict_get u (user_locations s)) eqn:E; [exact (Hinv u l E) | constructor].
Qed.

Lemma add_location_invariant u c s :
  no_ci_duplicates s -> no_ci_duplicates (snd (add_location u c s)).
Proof.
  intros Hinv.
  destruct (add_location_cases u c s) as [[_ E] | [[_ [_ E]] | [_ [Hp E]]]]; rewrite E.
  - exact Hinv.
  - intros k locs. cbn [snd user_locations].
    destruct (String.eqb k u) eqn:Ek.
    + apply String.eqb_eq in Ek. subst k. rewrite dict_get_setdefault. intros H. injection H as <-.
      destruct (dict_get u (user_locations s)) as [l|] eqn:El; [exact (Hinv u l El) | constructor].
    + apply String.eqb_neq in Ek. rewrite dict_get_setdefault_neq by exact Ek. apply Hinv.
  - assert (Hs : no_ci_duplicates
              (mkState (WHITELISTED_USERS s)
                 (dict_set u (app (list_locations s u) [c]) (dict_setdefault u (user_locations s)))
                 (stored s) (app (trace s) [EvFetch c 1]))).
    { intros k locs. cbn [user_locations].
      destruct (String.eqb k u) eqn:Ek.
      - apply String.eqb_eq in Ek. subst k. rewrite dict_get_set_eq. intros H. injection H as <-.
        rewrite map_app. apply NoDup_app.
        + apply no_dup_list_locations, Hinv.
        + constructor; [intros [] | constructor].
        + intros a Ha [Hb | []]. subst a. apply py_in_false_iff in Hp. contradiction.
      - apply String.eqb_neq in Ek.
        rewrite dict_get_set_neq, dict_get_setdefault_neq by exact Ek. apply Hinv. }
    intros k locs. cbn [snd]. rewrite update_config_file_ul. apply Hs.
Qed.

(** C6 (amended): adding a location again in another letter case after
    it was added leaves the recipient's list unchanged and answers
    "already in your list" exactly when the validation probe (run first)
    accepts the new spelling, and "Invalid city" otherwise; the list
    holds exactly one entry equal to it up to case; and every sequence
    of [add_location] calls keeps the lists free of case-insensitive
    duplicates. *)
Theorem add_location_case_insensitive (s : State) (u c c' : string)
    (Hlow : py_lower c = py_lower c') (Hadd : fst (add_location u c s) = Ok Added) :
  let s1 := snd (add_location u c s) in
  fst (add_location u c' s1)
    = match weather_api c' 1 with Some _ => Ok AlreadyPresent | None => Ok Rejected end
  /\ list_locations (snd (add_location u c' s1)) u = list_locations s1 u
  /\ List.length (filter (fun l => String.eqb (py_lower l) (py_lower c')) (list_locations s1 u))
     = 1%nat
  /\ (forall (s0 : State) (calls : list (string * string)),
        no_ci_duplicates s0 ->
        no_ci_duplicates
          (fold_left (fun st call => snd (add_location (fst call) (snd call) st)) calls s0)).
Proof.
  cbv zeta.
  destruct (add_location_added u c s Hadd) as [Hp Hl].
  assert (Hp' : py_in (py_lower c') (map py_lower (list_locations (snd (add_location u c s)) u)) = true).
  { rewrite Hl, map_app. unfold py_in. rewrite existsb_app. cbn.
    rewrite Hlow, String.eqb_refl, orb_true_r. reflexivity. }
  destruct (add_location_present u c' _ Hp') as [H1 H2].
  split; [exact H1|]. split; [exact H2|]. split.
  { rewrite Hl, filter_app, <- Hlow, filter_no_match by (apply py_in_false_iff, Hp).
    cbn. rewrite String.eqb_refl. reflexivity. }
  intros s0 calls. revert s0.
  induction calls as [|call calls IH]; intros s0 Hinv; [exact Hinv|].
  cbn [fold_left]. apply IH, add_location_invariant, Hinv.
Qed.

Lemma py_in_filtered (x : string) (l : list string) :
  py_in x (map py_lower (filter (fun loc => negb (String.eqb (py_lower loc) x)) l)) = false.
Proof.
  apply py_in_false_iff. induction l as [|y l IH]; [intros []|].
  cbn. destruct (String.eqb (py_lower y) x) eqn:E; cbn; [exact IH|].
  intros [H | H]; [|contradiction].
  apply String.eqb_neq in E. contradiction.
Qed.

(** C7 (amended): [removeLocation] for a location absent from the
    recipient's list (up to [str.lower]) returns [NotFound] and leaves
    the whole state unchanged.  When a match exists, every match is
    filtered out of the list in memory and is no longer in it; the call
    returns [Removed] once config.ini holds the new registry, or raises
    the store's IOError, config.ini then as it was or truncated. *)
Theorem remove_location_spec (s : State) (u c : string) :
  (py_in (py_lower c) (map py_lower (list_locations s u)) = false ->
   remove_location u c s = (Ok NotFound, s))
  /\ (py_in (py_lower c) (map py_lower (list_locations s u)) = true ->
      list_locations (snd (remove_location u c s)) u
        = filter (fun loc => negb (String.eqb (py_lower loc) (py_lower c))) (list_locations s u)
      /\ py_in (py_lower c) (map py_lower (list_locations (snd (remove_location u c s)) u)) = false
      /\ ((fst (remove_location u c s) = Ok Removed
           /\ stored (snd (remove_location u c s))
              = CfgFile (snapshot (snd (remove_location u c s))))
          \/ (fst (remove_location u c s) = Err IOError
              /\ (stored (snd (remove_location u c s)) = stored s
                  \/ stored (snd (remove_location u c s)) = CfgTruncated)))).
Proof.
  unfold remove_location, bind, get, ret, set_locations. unfold list_locations at 1 2.
  destruct (dict_get u (user_locations s)) as [locs|] eqn:Eu.
  - split.
    + intros Hp. rewrite Hp. reflexivity.
    + intros Hp. rewrite Hp. unfold update_config_file.
      cbn [fst snd WHITELISTED_USERS user_locations stored trace].
      unfold list_locations. rewrite Eu.
      destruct (config_write _); cbn [fst snd user_locations stored];
        rewrite dict_get_set_eq; (split; [reflexivity | split; [apply py_in_filtered|]]).
      * left. split; reflexivity.
      * right. split; [reflexivity | left; reflexivity].
      * right. split; [reflexivity | right; reflexivity].
  - split; [intros _; reflexivity | intros H; discriminate].
Qed.

(** C8 (amended): an update from a recipient outside the whitelist is
    silently ignored (no reply, no effect, no state change) by /weather,
    /history, /add, /remove and /list; /start and /help answer anyone,
    /mock answers a non-admin with a refusal, and /buymeacoffee (the
    self-service onboarding path) appends the caller to the whitelist,
    leaves the location lists alone and then either writes config.ini
    and replies "You are now whitelisted!", or raises the store's
    IOError with no reply (config.ini as it was or truncated). *)
Theorem unauthorized_commands (u ch : string) (args : list string) (s : State)
    (Hu : py_in u (WHITELISTED_USERS s) = false) :
  (forall c, In c [CWeather; CHistory; CAdd; CRemove; CList] ->
             handle c u ch args s = (Ok tt, s))
  /\ handle CStart u ch args s = (Ok tt, add_trace s [EvReply ch start_text])
  /\ handle CHelp u ch args s = (Ok tt, add_trace s [EvReply ch start_text])
  /\ (py_in u ADMINS = false ->
      handle CMock u ch args s
      = (Ok tt, add_trace s [EvReply ch "You are not authorized to use this command."]))
  /\ (let r := handle CBuyMeACoffee u ch args s in
      WHITELISTED_USERS (snd r) = app (WHITELISTED_USERS s) [u]
      /\ user_locations (snd r) = user_locations s
      /\ ((fst r = Ok tt
           /\ stored (snd r) = CfgFile (snapshot (snd r))
           /\ trace (snd r)
              = app (trace s) [EvReply ch "You are now whitelisted! Use /start to see commands."])
          \/ (fst r = Err IOError
              /\ trace (snd r) = trace s
              /\ (stored (snd r) = stored s \/ stored (snd r) = CfgTruncated)))).
Proof.
  split.
  { intros c Hc. cbn in Hc.
    destruct Hc as [<- | [<- | [<- | [<- | [<- | []]]]]]; cbn [handle];
      unfold weather_command, history_command, add_command, remove_command, list_command,
        bind, get; rewrite Hu; reflexivity. }
  split; [reflexivity|]. split; [reflexivity|]. split.
  { intros Ha. cbn [handle]. unfold mock_command. rewrite Ha. reflexivity. }
  cbv zeta. cbn [handle].
  unfold buymeacoffee_command, bind, get, set_whitelist, update_config_file, reply, emit.
  rewrite Hu. destruct (config_write _); cbn [fst snd WHITELISTED_USERS user_locations stored trace];
    (split; [reflexivity|]); (split; [reflexivity|]).
  - left. split; [reflexivity|]. split; reflexivity.
  - right. split; [reflexivity|]. split; [reflexivity | left; reflexivity].
  - right. split; [reflexivity|]. split; [reflexivity | right; reflexivity].
Qed.

(** ** Read-only handlers *)

Lemma trace_only_ret {A} (a : A) : trace_only (ret a).
Proof. intros s. exists []. symmetry. apply add_trace_nil. Qed.

Lemma trace_only_raise {A} e : trace_only (@raise A e).
Proof. intros s. exists []. symmetry. apply add_trace_nil. Qed.

Lemma trace_only_get : trace_only get.
Proof. intros s. exists []. symmetry. apply add_trace_nil. Qed.

Lemma trace_only_emit e : trace_only (emit e).
Proof. intros s. exists [e]. reflexivity. Qed.

Lemma trace_only_bind {A B} (m : M A) (k : A -> M B) :
  trace_only m -> (forall a, trace_only (k a)) -> trace_only (bind m k).
Proof.
  intros Hm Hk s. unfold bind. destruct (Hm s) as [l Hl].
  destruct (m s) as [[a|e] s'] eqn:E; cbn in Hl; subst s'.
  - destruct (Hk a (add_trace s l)) as [l' Hl']. exists (app l l').
    rewrite Hl', add_trace_app. reflexivity.
  - exists l. reflexivity.
Qed.

Lemma trace_only_for_each {A} (l : list A) (f : A -> M unit) :
  (forall x, trace_only (f x)) -> trace_only (for_each l f).
Proof.
  intros Hf. induction l as [|x l IH]; cbn [for_each].
  - apply trace_only_ret.
  - apply trace_only_bind; [apply Hf | intros; exact IH].
Qed.

Ltac readonly :=
  repeat (cbv beta;
    first
    [ apply trace_only_bind; intros
    | apply trace_only_ret | apply trace_only_raise | apply trace_only_get
    | apply trace_only_emit
    | apply trace_only_for_each; intros
    | match goal with
      | |- trace_only (if ?b then _ else _) => destruct b
      | |- trace_only (match ?x with _ => _ end) => destruct x
      | |- trace_only (let '(_, _) := ?x in _) => destruct x
      end
    | progress unfold reply, get_weather, send_telegram_message, send_weather_report,
        start_command, weather_command, history_command, list_command,
        scheduled_weather_update, mock_command ]).

(** /start, /help, /weather, /history and /list and the scheduled
    dispatch only add effects (fetches, sends, replies): whoever calls
    them and with whatever arguments, they never change the whitelist,
    the location lists or config.ini. *)
Theorem read_only_handlers (u ch : string) (args : list string) :
  trace_only (start_command u ch args) /\ trace_only (weather_command u ch args)
  /\ trace_only (history_command u ch args) /\ trace_only (list_command u ch args)
  /\ trace_only scheduled_weather_update.
Proof. repeat split; readonly. Qed.

Lemma flat_map_pairs (u : string) (l : list string) :
  flat_map (fun p => pair_events (fst p) (snd p)) (map (fun city => (u, city)) l)
  = flat_map (pair_events u) l.
Proof. induction l as [|c l IH]; cbn; [reflexivity | rewrite IH; reflexivity]. Qed.

Lemma weather_run (u ch : string) (args : list string) (s : State) :
  py_in u (WHITELISTED_USERS s) = true ->
  weather_command u ch args s
  = match (match args with [] => list_locations s u | _ => [py_join " " args] end) with
    | [] => (Ok tt, add_trace s [EvReply ch "Please specify a city or add one with /add <city>."])
    | cities =>
        (fst (dispatch_spec (map (fun city => (ch, city)) cities)),
         add_trace s (snd (dispatch_spec (map (fun city => (ch, city)) cities))))
    end.
Proof.
  intros Hu. unfold weather_command, bind, get. rewrite Hu. cbn [negb]. cbv zeta.
  destruct (match args with [] => list_locations s u | _ => [py_join " " args] end) as [|c cs].
  - reflexivity.
  - rewrite <- (flat_map_single_pair ch).
    refine (runs_as_for_each (WHITELISTED_USERS s) (c :: cs) _ _ _ s eq_refl).
    intros city. apply send_weather_report_runs_as.
Qed.

(** /weather from a whitelisted recipient: the cities are the saved
    locations when there are no arguments, else the one city the
    arguments spell (joined by spaces); no city gets the hint to add
    one.  Each city then gets a report in order, as in a scheduled run:
    a failed fetch still sends the "Could not retrieve" text and a
    failed send is swallowed, so when every report formats each city
    gets its fetch and its send; a report that fails to format ends the
    command with that exception right after its fetch. *)
Theorem weather_command_reports (u ch : string) (args : list string) (s : State)
    (Hu : py_in u (WHITELISTED_USERS s) = true) :
  let cities := match args with [] => list_locations s u | _ => [py_join " " args] end in
  (cities = [] ->
   weather_command u ch args s
   = (Ok tt, add_trace s [EvReply ch "Please specify a city or add one with /add <city>."]))
  /\ ((forall city, In city cities -> report_text city <> None) -> cities <> [] ->
      weather_command u ch args s = (Ok tt, add_trace s (flat_map (pair_events ch) cities)))
  /\ (forall pre city post,
        cities = app pre (city :: post) ->
        (forall c, In c pre -> report_text c <> None) -> report_text city = None ->
        weather_command u ch args s
        = (Err ReportError, add_trace s (app (flat_map (pair_events ch) pre) [EvFetch city 3]))).
Proof.
  cbv zeta. rewrite (weather_run u ch args s Hu).
  destruct (match args with [] => list_locations s u | _ => [py_join " " args] end) as [|c cs].
  all: cbv beta iota zeta.
  - split; [intros _; reflexivity|]. split; [intros _ H; contradiction H; reflexivity|].
    intros pre city post H. destruct pre; discriminate.
  - split; [discriminate|]. split.
    + intros Hok _. rewrite dispatch_spec_all_ok, flat_map_pairs; [reflexivity|].
      intros u' c' Hin. apply in_map_iff in Hin. destruct Hin as [x [Hx Hin]].
      injection Hx as _ <-. apply Hok, Hin.
    + intros pre city post Hd Hpre Hc. rewrite Hd, map_app. cbn [map].
      rewrite dispatch_spec_stop, flat_map_pairs; [reflexivity| |exact Hc].
      intros u' c' Hin. apply in_map_iff in Hin. destruct Hin as [x [Hx Hin]].
      injection Hx as _ <-. apply Hpre, Hin.
Qed.



(** ** Add and remove round trips *)

Lemma remove_location_absent u c s :
  py_in (py_lower c) (map py_lower (list_locations s u)) = false ->
  remove_location u c s = (Ok NotFound, s).
Proof.
  unfold remove_location, bind, get, ret, list_locations.
  destruct (dict_get u (user_locations s)); intros Hp; [rewrite Hp|]; reflexivity.
Qed.

Lemma remove_location_found u c s locs :
  dict_get u (user_locations s) = Some locs ->
  py_in (py_lower c) (map py_lower locs) = true ->
  let s3 := mkState (WHITELISTED_USERS s)
              (dict_set u (filter (fun loc => negb (String.eqb (py_lower loc) (py_lower c))) locs)
                 (user_locations s))
              (stored s) (trace s) in
  remove_location u c s
  = (match fst (update_config_file s3) with Ok _ => Ok Removed | Err e => Err e end,
     snd (update_config_file s3)).
Proof.
  intros Eu Hp. cbv zeta.
  unfold remove_location, bind, get, ret, set_locations.
  rewrite Eu, Hp. destruct (update_config_file _) as [[a|e] s']; reflexivity.
Qed.

Lemma filter_keep_all (x : string) (l : list string) :
  py_in x (map py_lower l) = false ->
  filter (fun loc => negb (String.eqb (py_lower loc) x)) l = l.
Proof.
  induction l as [|y l IH]; intros H; [reflexivity|].
  cbn in H |- *. apply orb_false_iff in H. destruct H as [H1 H2].
  rewrite String.eqb_sym, H1. cbn. rewrite IH by exact H2. reflexivity.
Qed.

(** Undo: removing a location right after adding it (same spelling)
    restores the recipient's previous list, and the removal answers
    "Removed" unless the store write raises. *)
Theorem add_then_remove (s : State) (u c : string)
    (Hadd : fst (add_location u c s) = Ok Added) :
  let s1 := snd (add_location u c s) in
  (fst (remove_location u c s1) = Ok Removed \/ fst (remove_location u c s1) = Err IOError)
  /\ list_locations (snd (remove_location u c s1)) u = list_locations s u.
Proof.
  cbv zeta. destruct (add_location_added u c s Hadd) as [Hp Hl].
  set (s1 := snd (add_location u c s)) in *.
  assert (Eu : dict_get u (user_locations s1) = Some (app (list_locations s u) [c])).
  { revert Hl. unfold list_locations at 1. destruct (dict_get u (user_locations s1)).
    - intros ->. reflexivity.
    - intros H. exfalso. destruct (list_locations s u); discriminate. }
  assert (Hp1 : py_in (py_lower c) (map py_lower (app (list_locations s u) [c])) = true).
  { rewrite map_app. unfold py_in. rewrite existsb_app. cbn.
    rewrite String.eqb_refl, orb_true_r. reflexivity. }
  assert (Hf : filter (fun loc => negb (String.eqb (py_lower loc) (py_lower c)))
                 (app (list_locations s u) [c]) = list_locations s u).
  { rewrite filter_app, filter_keep_all by exact Hp. cbn.
    rewrite String.eqb_refl. cbn. apply app_nil_r. }
  pose proof (remove_location_found u c s1 _ Eu Hp1) as E. cbv zeta in E. rewrite E.
  split; [cbn [fst]; case_write; auto|].
  cbn [snd]. rewrite list_locations_update, list_locations_state, dict_get_set_eq. exact Hf.
Qed.

(** After a successful removal no spelling of the location is left, so
    adding any case variant the provider accepts appends it again
    ("Added", or the store's IOError), never "already in your list". *)
Theorem remove_then_add (s : State) (u c c' : string)
    (Hlow : py_lower c = py_lower c')
    (Hrem : fst (remove_location u c s) = Ok Removed)
    (Hw : weather_api c' 1 <> None) :
  let s1 := snd (remove_location u c s) in
  (fst (add_location u c' s1) = Ok Added \/ fst (add_location u c' s1) = Err IOError)
  /\ list_locations (snd (add_location u c' s1)) u = app (list_locations s1 u) [c'].
Proof.
  cbv zeta.
  assert (Hp : py_in (py_lower c')
                 (map py_lower (list_locations (snd (remove_location u c s)) u)) = false).
  { destruct (dict_get u (user_locations s)) as [locs|] eqn:Eu.
    - destruct (py_in (py_lower c) (map py_lower locs)) eqn:Ep.
      + pose proof (remove_location_found u c s locs Eu Ep) as E. cbv zeta in E.
        rewrite E. cbn [snd].
        rewrite list_locations_update, list_locations_state, dict_get_set_eq, <- Hlow.
        apply py_in_filtered.
      + rewrite remove_location_absent in Hrem; [discriminate|].
        unfold list_locations. rewrite Eu. exact Ep.
    - rewrite remove_location_absent in Hrem; [discriminate|].
      unfold list_locations. rewrite Eu. reflexivity. }
  set (s1 := snd (remove_location u c s)) in *.
  destruct (add_location_cases u c' s1) as [[Ew _] | [[_ [Hp' _]] | [_ [_ E]]]];
    [contradiction | congruence |].
  rewrite E. split; [cbn [fst]; case_write; auto|].
  cbn [snd]. rewrite list_locations_update, list_locations_state, dict_get_set_eq. reflexivity.
Qed.

(** ** Case-insensitive duplicates across runs *)

Lemma keeps_ret {A} (a : A) : keeps_no_ci_duplicates (ret a).
Proof. intros s H. exact H. Qed.

Lemma keeps_raise {A} e : keeps_no_ci_duplicates (@raise A e).
Proof. intros s H. exact H. Qed.

Lemma keeps_get : keeps_no_ci_duplicates get.
Proof. intros s H. exact H. Qed.

Lemma keeps_emit e : keeps_no_ci_duplicates (emit e).
Proof. intros s H. exact H. Qed.

Lemma keeps_set_whitelist wl : keeps_no_ci_duplicates (set_whitelist wl).
Proof. intros s H. exact H. Qed.

Lemma keeps_update_config_file : keeps_no_ci_duplicates update_config_file.
Proof. intros s H k l. rewrite update_config_file_ul. apply H. Qed.

Lemma keeps_bind {A B} (m : M A) (k : A -> M B) :
  keeps_no_ci_duplicates m -> (forall a, keeps_no_ci_duplicates (k a)) ->
  keeps_no_ci_duplicates (bind m k).
Proof.
  intros Hm Hk s H. unfold bind. pose proof (Hm s H) as H1.
  destruct (m s) as [[a|e] s'] eqn:E; cbn in H1; [apply Hk|]; exact H1.
Qed.

Lemma keeps_for_each {A} (l : list A) (f : A -> M unit) :
  (forall x, keeps_no_ci_duplicates (f x)) -> keeps_no_ci_duplicates (for_each l f).
Proof.
  intros Hf. induction l as [|x l IH]; cbn [for_each].
  - apply keeps_ret.
  - apply keeps_bind; [apply Hf | intros; exact IH].
Qed.

Lemma keeps_add_location u c : keeps_no_ci_duplicates (add_location u c).
Proof. intros s H. apply add_location_invariant, H. Qed.

Lemma NoDup_map_filter (f : string -> string) (p : string -> bool) (l : list string) :
  NoDup (map f l) -> NoDup (map f (filter p l)).
Proof.
  induction l as [|x l IH]; intros H; [constructor|].
  cbn in H. apply NoDup_cons_iff in H. destruct H as [Hx Hl].
  cbn. destruct (p x); [|apply IH, Hl].
  cbn. constructor; [|apply IH, Hl].
  intros Hin. apply Hx. apply in_map_iff in Hin. destruct Hin as [y [Hy Hin]].
  apply filter_In in Hin. apply in_map_iff. exists y. split; [exact Hy | apply Hin].
Qed.

Lemma keeps_remove_location u c : keeps_no_ci_duplicates (remove_location u c).
Proof.
  intros s H. destruct (dict_get u (user_locations s)) as [locs|] eqn:Eu.
  - destruct (py_in (py_lower c) (map py_lower locs)) eqn:Ep.
    + pose proof (remove_location_found u c s locs Eu Ep) as E. cbv zeta in E. rewrite E.
      intros k l. cbn [snd]. rewrite update_config_file_ul. cbn [user_locations].
      destruct (String.eqb k u) eqn:Ek.
      * apply String.eqb_eq in Ek. subst k. rewrite dict_get_set_eq. intros E'. injection E' as <-.
        apply NoDup_map_filter, (H u locs Eu).
      * apply String.eqb_neq in Ek. rewrite dict_get_set_neq by exact Ek. apply H.
    + rewrite remove_location_absent; [exact H|].
      unfold list_locations. rewrite Eu. exact Ep.
  - rewrite remove_location_absent; [exact H|]. unfold list_locations. rewrite Eu. reflexivity.
Qed.

Ltac keeps :=
  repeat (cbv beta;
    first
    [ apply keeps_add_location | apply keeps_remove_location
    | apply keeps_bind; intros
    | apply keeps_ret | apply keeps_raise | apply keeps_get | apply keeps_emit
    | apply keeps_set_whitelist
    | apply keeps_update_config_file
    | apply keeps_for_each; intros
    | match goal with
      | |- keeps_no_ci_duplicates (if ?b then _ else _) => destruct b
      | |- keeps_no_ci_duplicates (match ?x with _ => _ end) => destruct x
      | |- keeps_no_ci_duplicates (let '(_, _) := ?x in _) => destruct x
      end
    | progress unfold reply, get_weather, send_telegram_message, send_weather_report,
        start_command, weather_command, history_command, add_command, remove_command,
        list_command, buymeacoffee_command, mock_command, scheduled_weather_update ]).

Lemma keeps_handle c u ch args : keeps_no_ci_duplicates (handle c u ch args).
Proof. destruct c; cbn [handle]; keeps. Qed.

Lemma keeps_scheduled : keeps_no_ci_duplicates scheduled_weather_update.
Proof. keeps. Qed.

(** No command and no scheduled run ever puts two case-insensitively
    equal locations in one recipient's list, not even when it raises;
    so from a configuration without such duplicates none appear after
    any sequence of updates. *)
Theorem run_keeps_no_ci_duplicates (inputs : list input) (s : State)
    (Hs : no_ci_duplicates s) :
  no_ci_duplicates (run inputs s).
Proof.
  revert s Hs. induction inputs as [|i inputs IH]; intros s Hs; [exact Hs|].
  cbn [run]. apply IH. destruct i as [c u ch args|]; cbn [step].
  - apply keeps_handle, Hs.
  - apply keeps_scheduled, Hs.
Qed.

(** ** Whitelist without duplicates *)

Lemma wl_nodup_ret {A} (a : A) : keeps_whitelist_nodup (ret a).
Proof. intros s H. exact H. Qed.

Lemma wl_nodup_raise {A} e : keeps_whitelist_nodup (@raise A e).
Proof. intros s H. exact H. Qed.

Lemma wl_nodup_get : keeps_whitelist_nodup get.
Proof. intros s H. exact H. Qed.

Lemma wl_nodup_emit e : keeps_whitelist_nodup (emit e).
Proof. intros s H. exact H. Qed.

Lemma wl_nodup_set_locations ul : keeps_whitelist_nodup (set_locations ul).
Proof. intros s H. exact H. Qed.

Lemma wl_nodup_update_config_file : keeps_whitelist_nodup update_config_file.
Proof. intros s H. rewrite update_config_file_wl. exact H. Qed.

Lemma wl_nodup_bind {A B} (m : M A) (k : A -> M B) :
  keeps_whitelist_nodup m -> (forall a, keeps_whitelist_nodup (k a)) ->
  keeps_whitelist_nodup (bind m k).
Proof.
  intros Hm Hk s H. unfold bind. pose proof (Hm s H) as H1.
  destruct (m s) as [[a|e] s'] eqn:E; cbn in H1; [apply Hk|]; exact H1.
Qed.

Lemma wl_nodup_for_each {A} (l : list A) (f : A -> M unit) :
  (forall x, keeps_whitelist_nodup (f x)) -> keeps_whitelist_nodup (for_each l f).
Proof.
  intros Hf. induction l as [|x l IH]; cbn [for_each].
  - apply wl_nodup_ret.
  - apply wl_nodup_bind; [apply Hf | intros; exact IH].
Qed.

Lemma NoDup_snoc_absent (l : list string) (x : string) :
  NoDup l -> py_in x l = false -> NoDup (app l [x]).
Proof.
  intros H Hx. apply NoDup_app; [exact H | constructor; [intros [] | constructor] |].
  intros a Ha [<- | []]. apply py_in_false_iff in Hx. contradiction.
Qed.

Lemma wl_nodup_buymeacoffee u ch args : keeps_whitelist_nodup (buymeacoffee_command u ch args).
Proof.
  intros s H. unfold buymeacoffee_command, bind, get, reply, emit, set_whitelist,
    update_config_file. cbn.
  destruct (py_in u (WHITELISTED_USERS s)) eqn:E; cbn; [exact H|].
  pose proof (NoDup_snoc_absent _ _ H E) as H1.
  destruct (config_write _); exact H1.
Qed.

Ltac wl_nodup :=
  repeat (cbv beta;
    first
    [ apply wl_nodup_buymeacoffee
    | apply wl_nodup_bind; intros
    | apply wl_nodup_ret | apply wl_nodup_raise | apply wl_nodup_get | apply wl_nodup_emit
    | apply wl_nodup_set_locations | apply wl_nodup_update_config_file
    | apply wl_nodup_for_each; intros
    | match goal with
      | |- keeps_whitelist_nodup (if ?b then _ else _) => destruct b
      | |- keeps_whitelist_nodup (match ?x with _ => _ end) => destruct x
      | |- keeps_whitelist_nodup (let '(_, _) := ?x in _) => destruct x
      end
    | progress unfold reply, get_weather, send_telegram_message, send_weather_report,
        start_command, weather_command, history_command, add_location, add_command,
        remove_location, remove_command, list_command, mock_command,
        scheduled_weather_update ]).

Lemma wl_nodup_handle c u ch args : keeps_whitelist_nodup (handle c u ch args).
Proof. destruct c; cbn [handle]; wl_nodup. Qed.

Lemma wl_nodup_scheduled : keeps_whitelist_nodup scheduled_weather_update.
Proof. wl_nodup. Qed.

(** The whitelist never holds an id twice: the admin id is appended at
    start-up only when missing (lines 44-45), /buymeacoffee appends its
    caller only when absent, and nothing else writes the whitelist; so
    from a WHITELISTED_USERS line without repeated ids the whitelist
    stays duplicate-free after any sequence of updates. *)
Theorem whitelist_no_duplicates (parsed : list string) (ADMIN_CHAT_ID : string)
    (locs : list (string * list string)) (inputs : list input) (Hp : NoDup parsed) :
  NoDup (WHITELISTED_USERS (run inputs (initial_state parsed ADMIN_CHAT_ID locs))).
Proof.
  assert (H0 : NoDup (WHITELISTED_USERS (initial_state parsed ADMIN_CHAT_ID locs))).
  { cbn. unfold init_whitelist. destruct (py_in ADMIN_CHAT_ID parsed) eqn:E; [exact Hp|].
    apply NoDup_snoc_absent; assumption. }
  revert H0. generalize (initial_state parsed ADMIN_CHAT_ID locs) as s.
  induction inputs as [|i inputs IH]; intros s Hs; [exact Hs|].
  cbn [run]. apply IH. destruct i as [c u ch args|]; cbn [step].
  - apply wl_nodup_handle, Hs.
  - apply wl_nodup_scheduled, Hs.
Qed.

(** ** config.ini in step with the registry *)

Lemma sync_ret {A} (a : A) : keeps_sync (ret a).
Proof. intros s b s' H E. injection E as _ <-. exact H. Qed.

Lemma sync_raise {A} e : keeps_sync (@raise A e).
Proof. intros s b s' H E. discriminate E. Qed.

Lemma sync_get : keeps_sync get.
Proof. intros s b s' H E. injection E as _ <-. exact H. Qed.

Lemma sync_emit e : keeps_sync (emit e).
Proof. intros s b s' H E. injection E as _ <-. exact H. Qed.

Lemma update_config_file_ok_sync x a s' :
  update_config_file x = (Ok a, s') -> in_sync s'.
Proof.
  unfold update_config_file. intros E.
  destruct (config_write _); [|discriminate|discriminate]. injection E as _ <-. reflexivity.
Qed.

Lemma sync_update_config_file : keeps_sync update_config_file.
Proof. intros s b s' _ E. exact (update_config_file_ok_sync s b s' E). Qed.

Lemma sync_bind {A B} (m : M A) (k : A -> M B) :
  keeps_sync m -> (forall a, keeps_sync (k a)) -> keeps_sync (bind m k).
Proof.
  intros Hm Hk s b s'' H E. unfold bind in E.
  destruct (m s) as [[a|e] s'] eqn:Em; [|discriminate].
  eapply Hk; [eapply Hm; [exact H | exact Em] | exact E].
Qed.

Lemma sync_for_each {A} (l : list A) (f : A -> M unit) :
  (forall x, keeps_sync (f x)) -> keeps_sync (for_each l f).
Proof.
  intros Hf. induction l as [|x l IH]; cbn [for_each].
  - apply sync_ret.
  - apply sync_bind; [apply Hf | intros; exact IH].
Qed.

Lemma filter_setdefault u d :
  filter (fun kv => negb (Nat.eqb (List.length (snd kv)) 0)) (dict_setdefault u d)
  = filter (fun kv => negb (Nat.eqb (List.length (snd kv)) 0)) d.
Proof.
  unfold dict_setdefault. destruct (dict_get u d) eqn:E; [reflexivity|].
  induction d as [|[k v] d IH]; [reflexivity|].
  cbn in E |- *. destruct (String.eqb u k); [discriminate|].
  cbn. rewrite IH by exact E. reflexivity.
Qed.

Lemma sync_add_location u c : keeps_sync (add_location u c).
Proof.
  intros s b s' H E.
  destruct (add_location_cases u c s) as [[_ E'] | [[_ [_ E']] | [_ [_ E']]]];
    rewrite E' in E.
  - injection E as _ <-. exact H.
  - injection E as _ <-. unfold in_sync, snapshot. cbn [WHITELISTED_USERS user_locations stored].
    rewrite filter_setdefault. exact H.
  - match type of E with
    | context [update_config_file ?x] =>
        destruct (update_config_file x) as [[a|e] s''] eqn:Eu; cbn in E; [|discriminate]
    end.
    injection E as _ <-. exact (update_config_file_ok_sync _ _ _ Eu).
Qed.

Lemma sync_remove_location u c : keeps_sync (remove_location u c).
Proof.
  intros s b s' H E. destruct (dict_get u (user_locations s)) as [locs|] eqn:Eu.
  - destruct (py_in (py_lower c) (map py_lower locs)) eqn:Ep.
    + pose proof (remove_location_found u c s locs Eu Ep) as E'. cbv zeta in E'.
      rewrite E' in E.
      match type of E with
      | context [update_config_file ?x] =>
          destruct (update_config_file x) as [[a|e] s''] eqn:Eu'; cbn in E; [|discriminate]
      end.
      injection E as _ <-. exact (update_config_file_ok_sync _ _ _ Eu').
    + rewrite remove_location_absent in E; [injection E as _ <-; exact H|].
      unfold list_locations. rewrite Eu. exact Ep.
  - rewrite remove_location_absent in E; [injection E as _ <-; exact H|].
    unfold list_locations. rewrite Eu. reflexivity.
Qed.

Lemma sync_buymeacoffee u ch args : keeps_sync (buymeacoffee_command u ch args).
Proof.
  intros s b s' H E. unfold buymeacoffee_command, bind, get, reply, emit, set_whitelist,
    update_config_file in E. cbn in E.
  destruct (py_in u (WHITELISTED_USERS s)); cbn in E; [injection E as _ <-; exact H|].
  destruct (config_write _); [|discriminate|discriminate]. injection E as _ <-. reflexivity.
Qed.

Ltac sync :=
  repeat (cbv beta;
    first
    [ apply sync_add_location | apply sync_remove_location | apply sync_buymeacoffee
    | apply sync_bind; intros
    | apply sync_ret | apply sync_raise | apply sync_get | apply sync_emit
    | apply sync_update_config_file
    | apply sync_for_each; intros
    | match goal with
      | |- keeps_sync (if ?b then _ else _) => destruct b
      | |- keeps_sync (match ?x with _ => _ end) => destruct x
      | |- keeps_sync (let '(_, _) := ?x in _) => destruct x
      end
    | progress unfold reply, get_weather, send_telegram_message, send_weather_report,
        start_command, weather_command, history_command, add_command, remove_command,
        list_command, mock_command, scheduled_weather_update ]).

(** Every command that completes leaves config.ini matching the
    in-memory whitelist and non-empty location lists, if it matched
    before: each mutation is followed by a write, and /add's
    [setdefault] only adds an empty list, which is not written. Only a
    raised store error leaves the two apart. *)
Theorem handlers_keep_config_in_sync (c : command) (u ch : string) (args : list string)
    (s s' : State) (Hs : in_sync s) (Hok : handle c u ch args s = (Ok tt, s')) :
  in_sync s'.
Proof.
  assert (Hc : keeps_sync (handle c u ch args)) by (destruct c; cbn [handle]; sync).
  exact (Hc s tt s' Hs Hok).
Qed.

(** ** Self-service whitelisting *)

(** After any /buymeacoffee call, a second one from the same user only
    answers "already whitelisted" and changes nothing else: the caller
    is appended to the in-memory whitelist before config.ini is written,
    so it stays whitelisted even when that write raised. *)
Theorem buymeacoffee_idempotent (u ch : string) (args args' : list string) (s : State) :
  let s1 := snd (buymeacoffee_command u ch args s) in
  buymeacoffee_command u ch args' s1
  = (Ok tt, add_trace s1 [EvReply ch "You are already whitelisted."]).
Proof.
  cbv zeta. set (s1 := snd (buymeacoffee_command u ch args s)).
  assert (H : py_in u (WHITELISTED_USERS s1) = true).
  { subst s1. unfold buymeacoffee_command, bind, get, reply, emit, set_whitelist,
      update_config_file. cbn.
    destruct (py_in u (WHITELISTED_USERS s)) eqn:E; cbn; [exact E|].
    assert (Hu : py_in u (WHITELISTED_USERS s ++ [u]) = true).
    { unfold py_in. rewrite existsb_app. cbn. rewrite String.eqb_refl, orb_true_r. reflexivity. }
    destruct (config_write _); exact Hu. }
  unfold buymeacoffee_command at 1, bind, get. rewrite H. reflexivity.
Qed.

End Bot.



(** ** RainIntervalExtractor *)

Lemma rain_finish_final (st : rain_state) :
  rain_finish st = rain_message (final_periods st).
Proof. destruct st as [[P r] s0]; reflexivity. Qed.

Lemma runs_cons_true (fmt : Z -> string) t xs :
  runs fmt ((true, t) :: xs) = open_run (fmt t) (runs fmt xs).
Proof.
  simpl. destruct (runs fmt xs) as [|[[|] s'] r]; reflexivity.
Qed.

Lemma runs_cons_false (fmt : Z -> string) t xs :
  exists r', runs fmt ((false, t) :: xs) = (false, fmt t) :: r'
             /\ intervals r' = intervals (runs fmt xs).
Proof.
  simpl. destruct (runs fmt xs) as [|[[|] s'] r]; simpl; eauto.
Qed.

Lemma open_run_open s s' r : open_run s (open_run s' r) = open_run s r.
Proof. destruct r as [|[[|] x] r]; reflexivity. Qed.

Lemma rain_loop_runs (fmt : Z -> string) xs :
  forall P st,
    option_map final_periods (rain_loop fmt (map hour_of_sample xs) (P, false, st))
      = Some (app P (intervals (runs fmt xs)))
    /\ option_map final_periods (rain_loop fmt (map hour_of_sample xs) (P, true, st))
      = Some (app P (intervals (open_run st (runs fmt xs)))).
Proof.
  induction xs as [|[b t] xs IH]; intros P st.
  - simpl. rewrite app_nil_r. split; reflexivity.
  - destruct b; cbn -[runs intervals app].
    + split.
      * rewrite (proj2 (IH P (fmt t))), runs_cons_true. reflexivity.
      * rewrite (proj2 (IH P st)), runs_cons_true, open_run_open. reflexivity.
    + destruct (runs_cons_false fmt t xs) as [r' [Hr Hi]].
      split.
      * rewrite (proj1 (IH P st)), Hr. simpl. rewrite Hi. reflexivity.
      * rewrite (proj1 (IH _ st)), Hr. simpl. rewrite Hi, <- app_assoc. reflexivity.
Qed.

Lemma get_rain_forecast_samples (fmt : Z -> string) xs :
  get_rain_forecast fmt (forecast_of_samples xs)
    = Some (rain_message (intervals (runs fmt xs))).
Proof.
  unfold get_rain_forecast, forecast_of_samples.
  cbn [first_forecastday forecastday hour].
  pose proof (proj1 (rain_loop_runs fmt xs [] "None")) as H.
  destruct (rain_loop fmt (map hour_of_sample xs) ([], false, "None")) as [st|];
    cbn in H; [|discriminate].
  injection H as H. rewrite rain_finish_final, H. reflexivity.
Qed.

Lemma runs_all_dry (fmt : Z -> string) ts :
  intervals (runs fmt (map (fun t => (false, t)) ts)) = [].
Proof.
  induction ts as [|t ts IH]; [reflexivity|].
  cbn [map]. destruct (runs_cons_false fmt t (map (fun t => (false, t)) ts)) as [r' [Hr Hi]].
  rewrite Hr. cbn. rewrite Hi. exact IH.
Qed.

(** C3: [get_rain_forecast] on an ordered sequence of hourly samples with
    boolean rain flags equals the run-length algorithm of the spec
    ([extract_spec]): a rain run opens at its first sample, closes as
    "from <start> to <end>" at the first dry sample, stays "onwards" when
    it reaches the end, no interval gives "No rain expected today.", and
    otherwise "Rain expected " with the intervals joined by ", " and a
    final period; a sequence with no rain flag set (the empty one
    included) yields exactly "No rain expected today.". *)
Theorem get_rain_forecast_run_length (fmt : Z -> string) (xs : list (bool * Z)) (ts : list Z) :
  get_rain_forecast fmt (forecast_of_samples xs) = Some (extract_spec fmt xs)
  /\ get_rain_forecast fmt (forecast_of_samples (map (fun t => (false, t)) ts))
       = Some "No rain expected today.".
Proof.
  split.
  - rewrite get_rain_forecast_samples. unfold extract_spec.
    destruct (intervals (runs fmt xs)); reflexivity.
  - rewrite get_rain_forecast_samples, runs_all_dry. reflexivity.
Qed.

Example rain_spec_example :
  get_rain_forecast (fun t => match t with 8%Z => "08:00 AM" | 9%Z => "09:00 AM"
                                         | _ => "10:00 AM" end)
    (forecast_of_samples [(true, 8%Z); (true, 9%Z); (false, 10%Z)])
  = Some "Rain expected from 08:00 AM to 10:00 AM.".
Proof. reflexivity. Qed.

Lemma rain_step_flag_default (fmt : Z -> string) st h :
  rain_step fmt st h = rain_step fmt st (hour_flag_default h).
Proof. destruct st as [[P r] s0], h as [[v|] te]; reflexivity. Qed.

Lemma rain_loop_flag_default (fmt : Z -> string) hs :
  forall st, rain_loop fmt hs st = rain_loop fmt (map hour_flag_default hs) st.
Proof.
  induction hs as [|h hs IH]; intros st; [reflexivity|].
  cbn [rain_loop map]. rewrite <- rain_step_flag_default.
  destruct (rain_step fmt st h); [apply IH | reflexivity].
Qed.

Lemma rain_loop_raw_total (fmt : Z -> string) xs :
  forall st, rain_loop fmt (map hour_of_raw xs) st <> None.
Proof.
  induction xs as [|[v t] xs IH]; intros [[P r] s0]; [discriminate|].
  cbn [rain_loop map]. unfold rain_step. cbn [hour_of_raw will_it_rain time_epoch fst snd].
  destruct (truthy v && negb r); [apply IH|].
  destruct (negb (truthy v) && r); apply IH.
Qed.

Lemma rain_loop_flagless (fmt : Z -> string) ts :
  forall P s0, rain_loop fmt (map (fun t => hour_of_raw (None, t)) ts) (P, false, s0)
               = Some (P, false, s0).
Proof. induction ts as [|t ts IH]; intros P s0; [reflexivity | apply IH]. Qed.

(** C10: [get_rain_forecast] is total on the listed malformed inputs: a
    missing [forecastday] list, a missing or empty [hour] list, and
    samples (all with a timestamp) lacking [will_it_rain] never raise; a
    sample lacking the rain flag behaves exactly as a dry one, so it can
    close but never open an interval; no usable sample (no hours, or only
    flagless ones) yields "No rain expected today.". *)
Theorem get_rain_forecast_total (fmt : Z -> string) (d : option DayAgg)
    (rest : list ForecastDay) (xs : list (option Z * Z)) (ts : list Z) :
  get_rain_forecast fmt (mkForecast None) = Some "No rain expected today."
  /\ get_rain_forecast fmt (mkForecast (Some (mkForecastDay None d :: rest)))
       = Some "No rain expected today."
  /\ get_rain_forecast fmt (mkForecast (Some (mkForecastDay (Some []) d :: rest)))
       = Some "No rain expected today."
  /\ get_rain_forecast fmt
       (mkForecast (Some (mkForecastDay (Some (map hour_of_raw xs)) d :: rest))) <> None
  /\ get_rain_forecast fmt
       (mkForecast (Some (mkForecastDay (Some (map (fun t => hour_of_raw (None, t)) ts)) d :: rest)))
       = Some "No rain expected today."
  /\ (forall fc : Forecast,
        get_rain_forecast fmt fc = get_rain_forecast fmt (forecast_flag_default fc)).
Proof.
  split; [reflexivity|]. split; [reflexivity|]. split; [reflexivity|].
  split.
  { unfold get_rain_forecast. cbn [first_forecastday forecastday hour].
    pose proof (rain_loop_raw_total fmt xs ([], false, "None")) as H.
    destruct (rain_loop fmt (map hour_of_raw xs) ([], false, "None")); congruence. }
  split.
  { unfold get_rain_forecast. cbn [first_forecastday forecastday hour].
    rewrite rain_loop_flagless. reflexivity. }
  intros [[[|fd rest']|]]; [reflexivity| |reflexivity].
  unfold get_rain_forecast, forecast_flag_default. cbn.
  destruct (hour fd) as [hs|]; cbn; [|reflexivity].
  rewrite rain_loop_flag_default. reflexivity.
Qed.

(** ** SuggestionEngine *)

Lemma suggestions_cases (c : Current) (d : DayAgg) :
  let items := suggestions c d in
  py_in msg_umbrella items = (truthy (daily_will_it_rain d) || Z.ltb 40 (chance_of d))
  /\ py_in msg_uv_high items = negb (Qle_bool (uv_of c) 5)
  /\ py_in msg_uv_moderate items = Qle_bool (uv_of c) 5 && negb (Qle_bool (uv_of c) 2)
  /\ filter is_air_item items = [if Z.leb (aqi_of c) 2 then msg_air_good else msg_air_poor]
  /\ exists pre air post,
       items = (pre ++ [air] ++ post)%list
       /\ (pre = [] \/ pre = [msg_umbrella])
       /\ (air = msg_air_good \/ air = msg_air_poor)
       /\ (post = [] \/ post = [msg_uv_high] \/ post = [msg_uv_moderate]).
Proof.
  unfold suggestions.
  destruct (truthy (daily_will_it_rain d) || Z.ltb 40 (chance_of d));
  destruct (Z.leb (aqi_of c) 2);
  destruct (Qle_bool (uv_of c) 5); destruct (Qle_bool (uv_of c) 2);
  cbn zeta; (split; [reflexivity|]); (split; [reflexivity|]);
  (split; [reflexivity|]); (split; [reflexivity|]);
  eexists _, _, _; (split; [reflexivity|]); tauto.
Qed.

Lemma append_empty_r (x : string) : x ++ "" = x.
Proof. induction x as [|a x IH]; [reflexivity | cbn; rewrite IH; reflexivity]. Qed.

Lemma concat_cons_prefix (sep x : string) (xs : list string) :
  exists r, String.concat sep (x :: xs) = x ++ r.
Proof.
  destruct xs as [|y ys].
  - exists ""%string. cbn. rewrite append_empty_r. reflexivity.
  - eexists. reflexivity.
Qed.

Lemma render_first_item (x : string) (xs : list string) :
  x = msg_umbrella \/ x = msg_air_good \/ x = msg_air_poor ->
  render_suggestions (x :: xs) = py_join nl (map (fun s => "- " ++ s) (x :: xs))
  /\ render_suggestions (x :: xs) <> msg_default.
Proof.
  intros Hx. unfold render_suggestions, py_join.
  destruct (concat_cons_prefix nl ("- " ++ x) (map (fun s => "- " ++ s) xs)) as [r Hr].
  cbn [map]. rewrite Hr.
  destruct Hx as [-> | [-> | ->]]; cbn;
    (split; [reflexivity | intros H; apply (f_equal (String.get 2)) in H; cbn in H; discriminate]).
Qed.

Lemma negb_Qle_bool_lt (x y : Q) : negb (Qle_bool x y) = true <-> (y < x)%Q.
Proof.
  rewrite negb_true_iff. split.
  - intros H. apply Qnot_le_lt. intros Hle. apply Qle_bool_iff in Hle. congruence.
  - intros H. destruct (Qle_bool x y) eqn:E; [|reflexivity].
    apply Qle_bool_iff in E. exfalso. apply (Qlt_not_le _ _ H E).
Qed.

(** C4: [get_suggestions]' rules over [(current, day_forecast)]: the list
    is never empty and is rendered as its "- " lines joined by newlines,
    never as the "- Enjoy your day!" fallback; it is the umbrella
    advisory (present iff [daily_will_it_rain] is truthy or
    [daily_chance_of_rain > 40]), then exactly one air-quality item, then
    the high-UV warning (iff uv > 5) or the moderate-UV note (iff
    2 < uv <= 5), with no UV item iff uv <= 2. *)
Theorem suggest_rules (c : Current) (d : DayAgg) :
  let items := suggestions c d in
  items <> []
  /\ suggest c d = py_join nl (map (fun s => "- " ++ s) items)
  /\ suggest c d <> msg_default
  /\ (py_in msg_umbrella items = true
        <-> truthy (daily_will_it_rain d) = true \/ (40 < chance_of d)%Z)
  /\ List.length (filter is_air_item items) = 1%nat
  /\ (py_in msg_uv_high items = true <-> (5 < uv_of c)%Q)
  /\ (py_in msg_uv_moderate items = true <-> (2 < uv_of c)%Q /\ (uv_of c <= 5)%Q)
  /\ (py_in msg_uv_high items = false /\ py_in msg_uv_moderate items = false
        <-> (uv_of c <= 2)%Q)
  /\ exists pre air post,
       items = (pre ++ [air] ++ post)%list
       /\ (pre = [] \/ pre = [msg_umbrella])
       /\ (air = msg_air_good \/ air = msg_air_poor)
       /\ (post = [] \/ post = [msg_uv_high] \/ post = [msg_uv_moderate]).
Proof.
  cbv zeta.
  destruct (suggestions_cases c d) as [Hu [Hh [Hm [Ha Hshape]]]].
  destruct Hshape as [pre [air [post [Hi [Hpre [Hair Hpost]]]]]].
  assert (Hfirst : exists x xs, suggestions c d = x :: xs
                   /\ (x = msg_umbrella \/ x = msg_air_good \/ x = msg_air_poor)).
  { rewrite Hi. destruct Hpre as [-> | ->]; cbn; eauto 6. }
  destruct Hfirst as [x [xs [Hx Hxin]]].
  destruct (render_first_item x xs Hxin) as [Hr Hnd].
  unfold suggest. rewrite Hx.
  split; [discriminate|]. split; [exact Hr|]. split; [exact Hnd|].
  rewrite <- Hx.
  split.
  { rewrite Hu, orb_true_iff, Z.ltb_lt. tauto. }
  split.
  { rewrite Ha. reflexivity. }
  split.
  { rewrite Hh. apply negb_Qle_bool_lt. }
  split.
  { rewrite Hm, andb_true_iff, negb_Qle_bool_lt, Qle_bool_iff. tauto. }
  split.
  { rewrite Hh, Hm. rewrite <- Qle_bool_iff.
    destruct (Qle_bool (uv_of c) 5) eqn:E5, (Qle_bool (uv_of c) 2) eqn:E2; cbn;
      try (split; [intros [H1 H2]; discriminate || reflexivity | intros H; discriminate || (split; reflexivity)]).
    split; [intros [H1 H2]; discriminate | intros _].
    apply Qle_bool_iff in E2. apply Qle_bool_iff in E5 || idtac.
    exfalso. assert (Hle : (uv_of c <= 5)%Q).
    { apply Qle_trans with 2%Q; [exact E2 | discriminate]. }
    apply Qle_bool_iff in Hle. congruence. }
  exists pre, air, post. auto.
Qed.

(** C2 (amended): the air-quality rule emits exactly one of its two
    items, the positive note when the index ([us-epa-index], default 0)
    is at most 2 and the poor-air caution otherwise; so an absent
    [air_quality] block, an absent index or an index of 0 all give the
    positive note. *)
Theorem suggestions_air_quality (c : Current) (d : DayAgg) (u : option Q) :
  filter is_air_item (suggestions c d)
    = [if Z.leb (aqi_of c) 2 then msg_air_good else msg_air_poor]
  /\ filter is_air_item (suggestions (mkCurrent None u) d) = [msg_air_good]
  /\ filter is_air_item (suggestions (mkCurrent (Some (mkAirQuality None)) u) d)
       = [msg_air_good]
  /\ filter is_air_item (suggestions (mkCurrent (Some (mkAirQuality (Some 0%Z))) u) d)
       = [msg_air_good].
Proof.
  split; [exact (proj1 (proj2 (proj2 (proj2 (suggestions_cases c d)))))|].
  split; [exact (proj1 (proj2 (proj2 (proj2 (suggestions_cases _ d)))))|].
  split; exact (proj1 (proj2 (proj2 (proj2 (suggestions_cases _ d))))).
Qed.

(** C2 counterexample: with no air-quality data at all, the engine emits
    the positive note and not the poor-air-quality caution. *)
Lemma suggestions_aqi_absent_counterexample :
  suggestions (mkCurrent None None) (mkDayAgg None None) = [msg_air_good]
  /\ ~ (In msg_air_poor (suggestions (mkCurrent None None) (mkDayAgg None None))
        /\ ~ In msg_air_good (suggestions (mkCurrent None None) (mkDayAgg None None))).
Proof.
  split; [reflexivity|].
  intros [_ H]. apply H. left. reflexivity.
Qed.

(** ** Configuration values and the AQI description *)

Lemma py_split_app (c : ascii) (a b : string) :
  py_split c (a ++ String c b) = app (py_split c a) (py_split c b).
Proof.
  induction a as [|x a IH]; cbn.
  - rewrite Ascii.eqb_refl. reflexivity.
  - rewrite IH. destruct (Ascii.eqb x c); [reflexivity|].
    destruct (py_split c a) as [|p ps] eqn:E; [|reflexivity].
    destruct a; cbn in E; [discriminate|]. destruct (Ascii.eqb a c); [discriminate|].
    destruct (py_split c a0); discriminate.
Qed.

Lemma py_split_concat (c : ascii) (l : list string) :
  l <> [] -> py_split c (String.concat (String c EmptyString) l) = flat_map (py_split c) l.
Proof.
  induction l as [|x [|y ys] IH]; intros Hne; [congruence| |].
  - cbn. rewrite app_nil_r. reflexivity.
  - change (String.concat (String c EmptyString) (x :: y :: ys))
      with (x ++ String c EmptyString ++ String.concat (String c EmptyString) (y :: ys)).
    cbn [append]. rewrite py_split_app, IH by discriminate. reflexivity.
Qed.

Lemma all_chars_impl (p q : ascii -> bool) (s : string) :
  (forall c, p c = true -> q c = true) -> all_chars p s = true -> all_chars q s = true.
Proof.
  intros Hpq. induction s as [|x s IH]; [reflexivity|].
  cbn. intros H. apply andb_prop in H. destruct H as [H1 H2].
  rewrite (Hpq x H1), (IH H2). reflexivity.
Qed.

Lemma all_chars_append (p : ascii -> bool) (a b : string) :
  all_chars p (a ++ b) = all_chars p a && all_chars p b.
Proof.
  induction a as [|x a IH]; [reflexivity|]. cbn. rewrite IH. apply andb_assoc.
Qed.

Lemma all_chars_join (p : ascii -> bool) (l : list string) :
  p comma = true -> (forall x, In x l -> all_chars p x = true) ->
  all_chars p (py_join "," l) = true.
Proof.
  intros Hc. unfold py_join. induction l as [|x [|y ys] IH]; intros H; [reflexivity| |].
  - cbn. apply H. left. reflexivity.
  - change (String.concat "," (x :: y :: ys))
      with (x ++ String comma EmptyString ++ String.concat "," (y :: ys)).
    rewrite !all_chars_append. cbn [all_chars]. rewrite Hc, (H x (or_introl eq_refl)).
    rewrite IH; [reflexivity|]. intros z Hz. apply H. right. exact Hz.
Qed.

Lemma plain_char_no_pct c : plain_char c = true -> negb (Ascii.eqb c pct) = true.
Proof. unfold plain_char. intros H. apply andb_prop in H. apply H. Qed.

Lemma plain_char_no_comma c : plain_char c = true -> negb (Ascii.eqb c comma) = true.
Proof.
  unfold plain_char. intros H. apply andb_prop in H. destruct H as [H _].
  apply andb_prop in H. apply H.
Qed.

Lemma drop_pct_pairs_no_pct s :
  all_chars (fun c => negb (Ascii.eqb c pct)) s = true -> drop_pct_pairs s = s.
Proof.
  induction s as [|x s IH]; intros H; [reflexivity|].
  cbn in H. apply andb_prop in H. destruct H as [H1 H2]. apply negb_true_iff in H1.
  cbn. rewrite H1, IH by exact H2. reflexivity.
Qed.

Lemma drop_keyrefs_no_pct n s :
  all_chars (fun c => negb (Ascii.eqb c pct)) s = true -> drop_keyrefs n s = s.
Proof.
  revert s. induction n as [|n IH]; intros s H; [reflexivity|].
  destruct s as [|x s]; [reflexivity|].
  cbn in H. apply andb_prop in H. destruct H as [H1 H2]. apply negb_true_iff in H1.
  cbn. rewrite H1, IH by exact H2. reflexivity.
Qed.

Lemma existsb_no_pct s :
  all_chars (fun c => negb (Ascii.eqb c pct)) s = true ->
  existsb (Ascii.eqb pct) (list_ascii_of_string s) = false.
Proof.
  induction s as [|x s IH]; intros H; [reflexivity|].
  cbn in H. apply andb_prop in H. destruct H as [H1 H2]. apply negb_true_iff in H1.
  cbn [existsb list_ascii_of_string]. rewrite Ascii.eqb_sym, H1, IH by exact H2. reflexivity.
Qed.

Lemma interp_get_no_pct s :
  all_chars (fun c => negb (Ascii.eqb c pct)) s = true -> interp_get s = Some s.
Proof.
  induction s as [|x s IH]; intros H; [reflexivity|].
  cbn in H. apply andb_prop in H. destruct H as [H1 H2]. apply negb_true_iff in H1.
  cbn. rewrite H1, IH by exact H2. reflexivity.
Qed.

Lemma interp_set_ok_no_pct s :
  all_chars (fun c => negb (Ascii.eqb c pct)) s = true -> interp_set_ok s = true.
Proof.
  intros H. unfold interp_set_ok.
  rewrite drop_pct_pairs_no_pct, drop_keyrefs_no_pct, existsb_no_pct by exact H.
  reflexivity.
Qed.

Lemma py_split_no_comma (l : string) :
  all_chars (fun c => negb (Ascii.eqb c comma)) l = true -> py_split comma l = [l].
Proof.
  induction l as [|x l IH]; intros H; [reflexivity|].
  cbn in H. apply andb_prop in H. destruct H as [H1 H2]. apply negb_true_iff in H1.
  cbn. rewrite H1, IH by exact H2. reflexivity.
Qed.

Lemma py_lstrip_length s : (String.length (py_lstrip s) <= String.length s)%nat.
Proof.
  induction s as [|x s IH]; [reflexivity|].
  cbn. destruct (is_space x); cbn; lia.
Qed.

Lemma py_rstrip_length s : (String.length (py_rstrip s) <= String.length s)%nat.
Proof.
  induction s as [|x s IH]; [reflexivity|].
  cbn. destruct (is_space x && String.eqb (py_rstrip s) EmptyString); cbn; lia.
Qed.

Lemma py_strip_fixed_head x r :
  py_strip (String x r) = String x r -> is_space x = false.
Proof.
  intros H. destruct (is_space x) eqn:E; [|reflexivity]. exfalso.
  unfold py_strip in H. cbn [py_lstrip] in H. rewrite E in H.
  apply (f_equal String.length) in H. cbn [String.length] in H.
  pose proof (py_lstrip_length r). pose proof (py_rstrip_length (py_lstrip r)). lia.
Qed.

Lemma py_rstrip_fixed l :
  l <> EmptyString -> py_strip l = l -> py_rstrip l = l.
Proof.
  intros Hne H. destruct l as [|x r]; [contradiction|].
  pose proof (py_strip_fixed_head x r H) as Hx.
  assert (Hl : py_lstrip (String x r) = String x r) by (cbn; rewrite Hx; reflexivity).
  unfold py_strip in H. rewrite Hl in H. exact H.
Qed.

Lemma py_rstrip_app a b :
  py_rstrip b <> EmptyString -> py_rstrip (a ++ b) = a ++ py_rstrip b.
Proof.
  intros Hb. induction a as [|x a IH]; [reflexivity|].
  change (py_rstrip (String x a ++ b))
    with (if is_space x && String.eqb (py_rstrip (a ++ b)) EmptyString then EmptyString
          else String x (py_rstrip (a ++ b))).
  rewrite IH.
  assert (Hne : String.eqb (a ++ py_rstrip b) EmptyString = false).
  { destruct a; [apply String.eqb_neq, Hb | reflexivity]. }
  rewrite Hne, andb_false_r. reflexivity.
Qed.

Lemma py_rstrip_comma c : py_rstrip (String comma c) = String comma (py_rstrip c).
Proof. reflexivity. Qed.

Lemma py_rstrip_join (l : list string) :
  l <> [] -> (forall x, In x l -> x <> EmptyString /\ py_strip x = x) ->
  py_rstrip (py_join "," l) = py_join "," l.
Proof.
  unfold py_join. induction l as [|x [|y ys] IH]; intros Hne H; [congruence| |].
  - cbn. destruct (H x (or_introl eq_refl)) as [Hx Hs]. apply py_rstrip_fixed; assumption.
  - change (String.concat "," (x :: y :: ys))
      with (x ++ String comma (String.concat "," (y :: ys))).
    rewrite py_rstrip_app by (rewrite py_rstrip_comma; discriminate).
    rewrite py_rstrip_comma, IH; [reflexivity | discriminate |].
    intros z Hz. apply H. right. exact Hz.
Qed.

Lemma py_strip_join (l : list string) :
  l <> [] -> (forall x, In x l -> x <> EmptyString /\ py_strip x = x) ->
  py_strip (py_join "," l) = py_join "," l.
Proof.
  intros Hne H. destruct l as [|x ys]; [congruence|].
  destruct (H x (or_introl eq_refl)) as [Hx Hs].
  destruct x as [|a r]; [contradiction|].
  pose proof (py_strip_fixed_head a r Hs) as Ha.
  assert (Hl : py_lstrip (py_join "," (String a r :: ys)) = py_join "," (String a r :: ys)).
  { unfold py_join. destruct ys as [|y ys].
    - cbn. rewrite Ha. reflexivity.
    - change (String.concat "," (String a r :: y :: ys))
        with (String a (r ++ String comma (String.concat "," (y :: ys)))).
      cbn [py_lstrip]. rewrite Ha. reflexivity. }
  unfold py_strip. rewrite Hl. apply py_rstrip_join; [discriminate | exact H].
Qed.

Lemma split_strip_plain (l : list string) :
  (forall x, In x l -> py_strip x = x /\ all_chars plain_char x = true) ->
  map py_strip (flat_map (py_split comma) l) = l.
Proof.
  induction l as [|x l IH]; intros H; [reflexivity|].
  destruct (H x (or_introl eq_refl)) as [Hs Hc].
  cbn [flat_map]. rewrite py_split_no_comma.
  - cbn. rewrite Hs, IH; [reflexivity|]. intros z Hz. apply H. right. exact Hz.
  - exact (all_chars_impl _ _ x plain_char_no_comma Hc).
Qed.

Lemma join_no_pct (l : list string) :
  (forall x, In x l -> all_chars plain_char x = true) ->
  all_chars (fun c => negb (Ascii.eqb c pct)) (py_join "," l) = true.
Proof.
  intros H. apply all_chars_join; [reflexivity|].
  intros x Hx. exact (all_chars_impl _ _ x plain_char_no_pct (H x Hx)).
Qed.


(** The whitelist value: [config.set] accepts it (line 235) and parsing
    it at start-up (line 30) gives back the same list of ids, provided
    each id is non-empty, stripped and written in printable ASCII
    without ',' or '%' (Telegram ids are digit strings); the empty
    whitelist reloads as empty. *)
Theorem whitelist_value_reload (wl : list string)
    (Hok : forall u, In u wl ->
           u <> EmptyString /\ py_strip u = u /\ all_chars plain_char u = true) :
  exists v, save_whitelist_value wl = Some v /\ parse_whitelist v = Some wl.
Proof.
  destruct wl as [|u0 us]; [exists EmptyString; split; reflexivity|].
  assert (Hp : all_chars (fun c => negb (Ascii.eqb c pct)) (py_join "," (u0 :: us)) = true)
    by (apply join_no_pct; intros x Hx; apply Hok, Hx).
  exists (py_join "," (u0 :: us)). split.
  - unfold save_whitelist_value. rewrite interp_set_ok_no_pct by exact Hp. reflexivity.
  - unfold parse_whitelist.
    rewrite py_strip_join, interp_get_no_pct by
      (first [exact Hp | discriminate
             | intros x Hx; destruct (Hok x Hx) as [H1 [H2 _]]; split; assumption]).
    cbv iota.
    f_equal. unfold py_join. change "," with (String comma EmptyString).
    rewrite py_split_concat by discriminate.
    rewrite split_strip_plain by (intros x Hx; destruct (Hok x Hx) as [_ H]; exact H).
    remember (u0 :: us) as wl eqn:Ewl. clear u0 us Ewl Hp.
    induction wl as [|u wl IH]; [reflexivity|].
    destruct (Hok u (or_introl eq_refl)) as [Hu _]. cbn.
    destruct (String.eqb u EmptyString) eqn:E; [apply String.eqb_eq in E; contradiction|].
    cbn. rewrite IH; [reflexivity|]. intros x Hx. apply Hok. right. exact Hx.
Qed.

Lemma aqi_desc_known (z : Z) : aqi_desc z <> "Unknown" -> (1 <= z <= 6)%Z.
Proof.
  intros H. destruct z as [|p|p]; try (exfalso; apply H; reflexivity).
  destruct p as [[p|p|]|[p|p|]|]; try (destruct p as [p|p|]);
    try (exfalso; apply H; reflexivity); lia.
Qed.

(** The report's air-quality line and the suggestions read the same
    index ([us-epa-index], default 0) but disagree below 1: the line
    says "Unknown" exactly for an index outside 1..6, so an absent or
    non-positive index is described "Unknown" while the suggestion calls
    the air good; within 1..6 the good-air note appears exactly for the
    descriptions "Good" and "Moderate". *)
Theorem aqi_description_vs_suggestion (c : Current) (d : DayAgg) :
  (aqi_desc (aqi_of c) = "Unknown" <-> (aqi_of c < 1 \/ 6 < aqi_of c)%Z)
  /\ ((aqi_of c <= 0)%Z ->
      aqi_desc (aqi_of c) = "Unknown" /\ filter is_air_item (suggestions c d) = [msg_air_good])
  /\ ((1 <= aqi_of c <= 6)%Z ->
      (In msg_air_good (suggestions c d)
       <-> aqi_desc (aqi_of c) = "Good" \/ aqi_desc (aqi_of c) = "Moderate")).
Proof.
  destruct (suggestions_cases c d) as [_ [_ [_ [Ha _]]]].
  assert (Hin : In msg_air_good (suggestions c d) <-> (aqi_of c <= 2)%Z).
  { split.
    - intros H. apply Z.leb_le. destruct (Z.leb (aqi_of c) 2) eqn:E; [reflexivity|].
      assert (Hf : In msg_air_good (filter is_air_item (suggestions c d))).
      { apply filter_In. split; [exact H | reflexivity]. }
      rewrite Ha in Hf. destruct Hf as [Hf | []]. discriminate.
    - intros H. apply Z.leb_le in H.
      assert (Hf : In msg_air_good (filter is_air_item (suggestions c d))).
      { rewrite Ha, H. left. reflexivity. }
      apply filter_In in Hf. apply Hf. }
  assert (Hunk : aqi_desc (aqi_of c) = "Unknown" <-> (aqi_of c < 1 \/ 6 < aqi_of c)%Z).
  { split.
    - intros H. destruct (Z_lt_le_dec (aqi_of c) 1); [left; exact l|].
      destruct (Z_lt_le_dec 6 (aqi_of c)); [right; exact l0|].
      assert (E : aqi_of c = 1%Z \/ aqi_of c = 2%Z \/ aqi_of c = 3%Z \/ aqi_of c = 4%Z
                  \/ aqi_of c = 5%Z \/ aqi_of c = 6%Z) by lia.
      exfalso. destruct E as [E|[E|[E|[E|[E|E]]]]]; rewrite E in H; discriminate.
    - intros H. destruct (string_dec (aqi_desc (aqi_of c)) "Unknown") as [E|E]; [exact E|].
      apply aqi_desc_known in E. lia. }
  split; [exact Hunk|]. split.
  - intros H. split; [apply Hunk; lia|]. rewrite Ha.
    replace (Z.leb (aqi_of c) 2) with true by (symmetry; apply Z.leb_le; lia). reflexivity.
  - intros H. rewrite Hin.
    assert (E : aqi_of c = 1%Z \/ aqi_of c = 2%Z \/ aqi_of c = 3%Z \/ aqi_of c = 4%Z
                \/ aqi_of c = 5%Z \/ aqi_of c = 6%Z) by lia.
    destruct E as [E|[E|[E|[E|[E|E]]]]]; rewrite E; cbn;
      split; intros; try lia; try (left; reflexivity); try (right; reflexivity);
      destruct H0; discriminate.
Qed.

(** ** Concrete runs: witnesses and counterexamples

    The environment below: a provider that answers every query, a
    formatter that always succeeds, a history provider with no data, a
    Telegram that accepts every send, [ascii_lower] for [str.lower]
    (they agree on ASCII text), and one whitelisted recipient "u" with
    no locations, config.ini in step with memory. *)

Lemma add_command_persist_failure_witness :
  fst (add_command unit (fun _ _ => Some tt) (fun _ => FailedAfterOpen) ascii_lower
         "u" "u" ["Paris"] (mkState ["u"] [] (CfgFile (["u"], [])) [])) = Err IOError
  /\ list_locations
       (snd (add_command unit (fun _ _ => Some tt) (fun _ => FailedAfterOpen) ascii_lower
               "u" "u" ["Paris"] (mkState ["u"] [] (CfgFile (["u"], [])) []))) "u"
     = app (list_locations (mkState ["u"] [] (CfgFile (["u"], [])) []) "u")
           [py_join " " ["Paris"]].
Proof.
  split; [reflexivity|].
  exact (proj1 (add_command_persist_failure unit (fun _ _ => Some tt) (fun _ => FailedAfterOpen)
                  ascii_lower "u" "u" ["Paris"] (mkState ["u"] [] (CfgFile (["u"], [])) [])
                  eq_refl)).
Defined.

(** C1 counterexample: /add Paris whose config.ini write fails after the
    file was opened raises, yet the recipient's list now holds "Paris"
    instead of the pre-mutation empty list, and config.ini is left
    truncated. *)
Lemma add_persist_failure_no_rollback :
  let s := mkState ["u"] [] (CfgFile (["u"], [])) [] in
  let r := add_command unit (fun _ _ => Some tt) (fun _ => FailedAfterOpen) ascii_lower
             "u" "u" ["Paris"] s in
  fst r = Err IOError
  /\ list_locations (snd r) "u" = ["Paris"]
  /\ list_locations (snd r) "u" <> list_locations s "u"
  /\ stored (snd r) = CfgTruncated.
Proof. vm_compute. repeat split; first [reflexivity | intro H; discriminate H]. Qed.


Lemma add_location_case_insensitive_witness :
  (ascii_lower "Paris" = ascii_lower "paris"
   /\ fst (add_location unit (fun _ _ => Some tt) (fun _ => Written) ascii_lower "u" "Paris"
             (mkState ["u"] [] (CfgFile (["u"], [])) [])) = Ok Added)
  /\ fst (add_location unit (fun _ _ => Some tt) (fun _ => Written) ascii_lower "u" "paris"
            (snd (add_location unit (fun _ _ => Some tt) (fun _ => Written) ascii_lower "u"
                    "Paris" (mkState ["u"] [] (CfgFile (["u"], [])) []))))
     = match (fun (_ : string) (_ : Z) => Some tt) "paris" 1%Z with
       | Some _ => Ok AlreadyPresent | None => Ok Rejected end.
Proof.
  split; [split; reflexivity|].
  exact (proj1 (add_location_case_insensitive unit (fun _ _ => Some tt) (fun _ => Written)
                  ascii_lower (mkState ["u"] [] (CfgFile (["u"], [])) []) "u" "Paris" "paris"
                  eq_refl eq_refl)).
Defined.

(** C6 counterexample: the provider accepts "Paris" but not "paris";
    after "Paris" was added, adding "paris" answers "Invalid city"
    ([Rejected]), not [AlreadyPresent], because the probe runs before the
    duplicate check. *)
Lemma add_location_probe_first_counterexample :
  let api := fun (c : string) (_ : Z) => if String.eqb c "Paris" then Some tt else None in
  let s := mkState ["u"] [] (CfgFile (["u"], [])) [] in
  let s1 := snd (add_location unit api (fun _ => Written) ascii_lower "u" "Paris" s) in
  fst (add_location unit api (fun _ => Written) ascii_lower "u" "Paris" s) = Ok Added
  /\ ascii_lower "Paris" = ascii_lower "paris"
  /\ fst (add_location unit api (fun _ => Written) ascii_lower "u" "paris" s1) = Ok Rejected
  /\ fst (add_location unit api (fun _ => Written) ascii_lower "u" "paris" s1)
     <> Ok AlreadyPresent.
Proof. vm_compute. repeat split; first [reflexivity | intro H; discriminate H]. Qed.

Lemma remove_location_spec_witness :
  py_in (ascii_lower "Berlin")
    (map ascii_lower
       (list_locations (mkState ["u"] [("u", ["Paris"])] (CfgFile (["u"], [("u", ["Paris"])])) [])
          "u")) = false
  /\ remove_location (fun _ => Written) ascii_lower "u" "Berlin"
       (mkState ["u"] [("u", ["Paris"])] (CfgFile (["u"], [("u", ["Paris"])])) [])
     = (Ok NotFound, mkState ["u"] [("u", ["Paris"])] (CfgFile (["u"], [("u", ["Paris"])])) []).
Proof.
  split; [reflexivity|].
  apply (proj1 (remove_location_spec (fun _ => Written) ascii_lower
                  (mkState ["u"] [("u", ["Paris"])] (CfgFile (["u"], [("u", ["Paris"])])) [])
                  "u" "Berlin")).
  reflexivity.
Defined.

(** C7 counterexample: "u" removes "paris", which matches its "Paris";
    the config.ini write fails after the file was opened, so the call
    raises the IOError instead of returning [Removed], although "Paris"
    is already gone from the list in memory. *)
Lemma remove_location_write_failure_counterexample :
  let s := mkState ["u"] [("u", ["Paris"])] (CfgFile (["u"], [("u", ["Paris"])])) [] in
  let r := remove_location (fun _ => FailedAfterOpen) ascii_lower "u" "paris" s in
  py_in (ascii_lower "paris") (map ascii_lower (list_locations s "u")) = true
  /\ fst r = Err IOError
  /\ fst r <> Ok Removed
  /\ list_locations (snd r) "u" = [].
Proof. vm_compute. repeat split; first [reflexivity | intro H; discriminate H]. Qed.

Lemma unauthorized_commands_witness :
  py_in "x" (WHITELISTED_USERS (mkState ["u"] [] (CfgFile (["u"], [])) [])) = false
  /\ handle unit (fun _ _ => Some tt) (fun _ _ => Some "report") (fun _ _ => HistNone)
       (fun _ => DateValid) (fun _ _ => true) (fun _ => Written) ["u"] ascii_lower
       CAdd "x" "x" ["Paris"] (mkState ["u"] [] (CfgFile (["u"], [])) [])
     = (Ok tt, mkState ["u"] [] (CfgFile (["u"], [])) []).
Proof.
  split; [reflexivity|].
  apply (proj1 (unauthorized_commands unit (fun _ _ => Some tt) (fun _ _ => Some "report")
                  (fun _ _ => HistNone) (fun _ => DateValid) (fun _ _ => true) (fun _ => Written)
                  ["u"] ascii_lower "x" "x" ["Paris"] (mkState ["u"] [] (CfgFile (["u"], [])) [])
                  eq_refl)).
  cbn. auto 6.
Defined.

(** C8 counterexample: /buymeacoffee from a recipient outside the
    whitelist changes the state (the caller is whitelisted and
    config.ini rewritten) and sends a reply. *)
Lemma buymeacoffee_unauthorized_counterexample :
  py_in "x" (WHITELISTED_USERS (mkState ["u"] [] (CfgFile (["u"], [])) [])) = false
  /\ handle unit (fun _ _ => Some tt) (fun _ _ => Some "report") (fun _ _ => HistNone)
       (fun _ => DateValid) (fun _ _ => true) (fun _ => Written) ["u"] ascii_lower
       CBuyMeACoffee "x" "x" [] (mkState ["u"] [] (CfgFile (["u"], [])) [])
     = (Ok tt, mkState ["u"; "x"] [] (CfgFile (["u"; "x"], []))
                 [EvReply "x" "You are now whitelisted! Use /start to see commands."]).
Proof. split; reflexivity. Qed.

(** ** Witnesses of the further properties *)


Lemma whitelist_value_reload_witness :
  (forall u, In u ["123"; "456"] ->
     u <> EmptyString /\ py_strip u = u /\ all_chars plain_char u = true)
  /\ exists v, save_whitelist_value ["123"; "456"] = Some v
               /\ parse_whitelist v = Some ["123"; "456"].
Proof.
  assert (Hok : forall u, In u ["123"; "456"] ->
                  u <> EmptyString /\ py_strip u = u /\ all_chars plain_char u = true).
  { intros u [<- | [<- | []]]; (split; [discriminate | split; reflexivity]). }
  split; [exact Hok|]. exact (whitelist_value_reload ["123"; "456"] Hok).
Defined.

Lemma weather_command_reports_witness :
  py_in "u" (WHITELISTED_USERS
               (mkState ["u"] [("u", ["Paris"])] (CfgFile (["u"], [("u", ["Paris"])])) []))
    = true
  /\ weather_command unit (fun _ _ => Some tt) (fun _ _ => Some "report") (fun _ _ => true)
       "u" "u" [] (mkState ["u"] [("u", ["Paris"])] (CfgFile (["u"], [("u", ["Paris"])])) [])
     = (Ok tt, add_trace
                 (mkState ["u"] [("u", ["Paris"])] (CfgFile (["u"], [("u", ["Paris"])])) [])
                 (flat_map (pair_events unit (fun _ _ => Some tt) (fun _ _ => Some "report")
                              (fun _ _ => true) "u") ["Paris"])).
Proof.
  split; [reflexivity|].
  pose proof (weather_command_reports unit (fun _ _ => Some tt) (fun _ _ => Some "report")
                (fun _ _ => true) "u" "u" []
                (mkState ["u"] [("u", ["Paris"])] (CfgFile (["u"], [("u", ["Paris"])])) [])
                eq_refl) as H.
  cbv zeta in H. apply (proj1 (proj2 H)).
  - intros city Hc. cbn in Hc. destruct Hc as [<- | []]. discriminate.
  - cbn. discriminate.
Defined.



Lemma add_then_remove_witness :
  fst (add_location unit (fun _ _ => Some tt) (fun _ => Written) ascii_lower "u" "Paris"
         (mkState ["u"] [] (CfgFile (["u"], [])) [])) = Ok Added
  /\ (let s1 := snd (add_location unit (fun _ _ => Some tt) (fun _ => Written) ascii_lower
                       "u" "Paris" (mkState ["u"] [] (CfgFile (["u"], [])) [])) in
      (fst (remove_location (fun _ => Written) ascii_lower "u" "Paris" s1) = Ok Removed
       \/ fst (remove_location (fun _ => Written) ascii_lower "u" "Paris" s1) = Err IOError)
      /\ list_locations (snd (remove_location (fun _ => Written) ascii_lower "u" "Paris" s1)) "u"
         = list_locations (mkState ["u"] [] (CfgFile (["u"], [])) []) "u").
Proof.
  split; [reflexivity|].
  apply (add_then_remove unit (fun _ _ => Some tt) (fun _ => Written) ascii_lower
           (mkState ["u"] [] (CfgFile (["u"], [])) []) "u" "Paris").
  reflexivity.
Defined.

Lemma remove_then_add_witness :
  ascii_lower "Paris" = ascii_lower "PARIS"
  /\ fst (remove_location (fun _ => Written) ascii_lower "u" "Paris"
            (mkState ["u"] [("u", ["Paris"])] (CfgFile (["u"], [("u", ["Paris"])])) []))
     = Ok Removed
  /\ (fun (_ : string) (_ : Z) => Some tt) "PARIS" 1%Z <> None
  /\ (let s1 := snd (remove_location (fun _ => Written) ascii_lower "u" "Paris"
                       (mkState ["u"] [("u", ["Paris"])]
                          (CfgFile (["u"], [("u", ["Paris"])])) [])) in
      (fst (add_location unit (fun _ _ => Some tt) (fun _ => Written) ascii_lower "u" "PARIS" s1)
         = Ok Added
       \/ fst (add_location unit (fun _ _ => Some tt) (fun _ => Written) ascii_lower "u" "PARIS"
                 s1) = Err IOError)
      /\ list_locations
           (snd (add_location unit (fun _ _ => Some tt) (fun _ => Written) ascii_lower
                   "u" "PARIS" s1)) "u"
         = app (list_locations s1 "u") ["PARIS"]).
Proof.
  split; [reflexivity|]. split; [reflexivity|]. split; [discriminate|].
  apply (remove_then_add unit (fun _ _ => Some tt) (fun _ => Written) ascii_lower
           (mkState ["u"] [("u", ["Paris"])] (CfgFile (["u"], [("u", ["Paris"])])) [])
           "u" "Paris" "PARIS").
  - reflexivity.
  - reflexivity.
  - discriminate.
Defined.

Lemma run_keeps_no_ci_duplicates_witness :
  no_ci_duplicates ascii_lower
    (mkState ["u"] [("u", ["Paris"])] (CfgFile (["u"], [("u", ["Paris"])])) [])
  /\ no_ci_duplicates ascii_lower
       (run unit (fun _ _ => Some tt) (fun _ _ => Some "report") (fun _ _ => HistNone)
          (fun _ => DateValid) (fun _ _ => true) (fun _ => Written) ["u"] ascii_lower
          [InCommand CAdd "u" "u" ["paris"]; InCommand CAdd "u" "u" ["Rome"]; InSchedule]
          (mkState ["u"] [("u", ["Paris"])] (CfgFile (["u"], [("u", ["Paris"])])) [])).
Proof.
  assert (H : no_ci_duplicates ascii_lower
                (mkState ["u"] [("u", ["Paris"])] (CfgFile (["u"], [("u", ["Paris"])])) [])).
  { intros k l E. cbn in E. destruct (String.eqb k "u"); [|discriminate].
    injection E as <-. cbn. constructor; [intros [] | constructor]. }
  split; [exact H|].
  exact (run_keeps_no_ci_duplicates unit (fun _ _ => Some tt) (fun _ _ => Some "report")
           (fun _ _ => HistNone) (fun _ => DateValid) (fun _ _ => true) (fun _ => Written) ["u"]
           ascii_lower
           [InCommand CAdd "u" "u" ["paris"]; InCommand CAdd "u" "u" ["Rome"]; InSchedule]
           (mkState ["u"] [("u", ["Paris"])] (CfgFile (["u"], [("u", ["Paris"])])) []) H).
Defined.

Lemma whitelist_no_duplicates_witness :
  NoDup ["u"]
  /\ NoDup (WHITELISTED_USERS
       (run unit (fun _ _ => Some tt) (fun _ _ => Some "report") (fun _ _ => HistNone)
          (fun _ => DateValid) (fun _ _ => true) (fun _ => Written) ["u"] ascii_lower
          [InCommand CBuyMeACoffee "v" "v" []; InCommand CBuyMeACoffee "v" "v" []]
          (initial_state ["u"] "u" []))).
Proof.
  assert (H : NoDup ["u"]) by (constructor; [intros [] | constructor]).
  split; [exact H|].
  exact (whitelist_no_duplicates unit (fun _ _ => Some tt) (fun _ _ => Some "report")
           (fun _ _ => HistNone) (fun _ => DateValid) (fun _ _ => true) (fun _ => Written) ["u"]
           ascii_lower ["u"] "u" []
           [InCommand CBuyMeACoffee "v" "v" []; InCommand CBuyMeACoffee "v" "v" []] H).
Defined.

Lemma handlers_keep_config_in_sync_witness :
  in_sync (mkState ["u"] [] (CfgFile (["u"], [])) [])
  /\ handle unit (fun _ _ => Some tt) (fun _ _ => Some "report") (fun _ _ => HistNone)
       (fun _ => DateValid) (fun _ _ => true) (fun _ => Written) ["u"] ascii_lower
       CAdd "u" "u" ["Rome"] (mkState ["u"] [] (CfgFile (["u"], [])) [])
     = (Ok tt, snd (handle unit (fun _ _ => Some tt) (fun _ _ => Some "report")
                      (fun _ _ => HistNone) (fun _ => DateValid) (fun _ _ => true)
                      (fun _ => Written) ["u"] ascii_lower
                      CAdd "u" "u" ["Rome"] (mkState ["u"] [] (CfgFile (["u"], [])) [])))
  /\ in_sync (snd (handle unit (fun _ _ => Some tt) (fun _ _ => Some "report")
                     (fun _ _ => HistNone) (fun _ => DateValid) (fun _ _ => true)
                     (fun _ => Written) ["u"] ascii_lower
                     CAdd "u" "u" ["Rome"] (mkState ["u"] [] (CfgFile (["u"], [])) []))).
Proof.
  assert (H0 : in_sync (mkState ["u"] [] (CfgFile (["u"], [])) [])) by reflexivity.
  assert (H1 : handle unit (fun _ _ => Some tt) (fun _ _ => Some "report") (fun _ _ => HistNone)
       (fun _ => DateValid) (fun _ _ => true) (fun _ => Written) ["u"] ascii_lower
       CAdd "u" "u" ["Rome"] (mkState ["u"] [] (CfgFile (["u"], [])) [])
     = (Ok tt, snd (handle unit (fun _ _ => Some tt) (fun _ _ => Some "report")
                      (fun _ _ => HistNone) (fun _ => DateValid) (fun _ _ => true)
                      (fun _ => Written) ["u"] ascii_lower
                      CAdd "u" "u" ["Rome"] (mkState ["u"] [] (CfgFile (["u"], [])) []))))
    by reflexivity.
  split; [exact H0|]. split; [exact H1|].
  exact (handlers_keep_config_in_sync unit (fun _ _ => Some tt) (fun _ _ => Some "report")
           (fun _ _ => HistNone) (fun _ => DateValid) (fun _ _ => true) (fun _ => Written) ["u"]
           ascii_lower CAdd "u" "u" ["Rome"] (mkState ["u"] [] (CfgFile (["u"], [])) []) _ H0 H1).
Defined.
